(** * Chunker and vector store of the job-application profile pipeline

    A shallow embedding of [scripts/document_parser.py] ([DocumentParser.chunk_text])
    and [scripts/vector_store.py] ([VectorStore]) together with the properties
    the design document states about them.

    Conventions.
    - A Python [str] is a list of Unicode code points ([text]); every Python
      [int] is a [Z].
    - A call that may raise returns an [outcome]; the [while] loop of
      [chunk_text] is run with fuel and yields [None] when the fuel is used up.
    - [self] of [VectorStore] is a record that is passed explicitly; the
      embedding model, the similarity index library and the host (paths,
      directory creation, model loading) are parameters. *)

From Stdlib Require Import String Ascii.
From Stdlib Require Import ZArith List Bool Lia.
Import ListNotations.
Open Scope Z_scope.

(** ** Exceptions and outcomes *)

Inductive exn : Type :=
| ValueError (msg : string)
| OverflowError
| AssertionError
| IndexError
| TypeError (msg : string)
| FileNotFoundError (msg : string)
| LibraryError (description : string).

Inductive outcome (A : Type) : Type :=
| Returned (a : A)
| Raised (e : exn).
Arguments Returned {A} a.
Arguments Raised {A} e.

(** ** Python strings *)

Module Py.

(** A character is its code point. *)
Definition char : Type := N.
Definition text : Type := list char.

Definition len {A} (s : list A) : Z := Z.of_nat (length s).

(** Literal texts are written as Rocq strings. *)
Definition str (s : string) : text := map N_of_ascii (list_ascii_of_string s).

Definition dot : char := 46%N.
Definition bang : char := 33%N.
Definition qmark : char := 63%N.
Definition space : char := 32%N.
Definition newline : char := 10%N.

(** Bound of a slice: a negative bound counts from the end, and every bound
    is clipped to [0 .. n]. *)
Definition slice_bound (n i : Z) : Z :=
  if i <? 0 then Z.max 0 (i + n) else Z.min i n.

(** [s[i:j]] *)
Definition slice {A} (s : list A) (i j : Z) : list A :=
  let lo := slice_bound (len s) i in
  let hi := slice_bound (len s) j in
  firstn (Z.to_nat (hi - lo)) (skipn (Z.to_nat lo) s).

(** [s[:j]] *)
Definition slice_to {A} (s : list A) (j : Z) : list A := slice s 0 j.

Fixpoint startswith (s sub : text) : bool :=
  match sub, s with
  | [], _ => true
  | _ :: _, [] => false
  | c :: sub', d :: s' => (c =? d)%N && startswith s' sub'
  end.

(** One left-to-right pass that remembers the last position where [sub]
    occurs; [pos] is the index of the head of [s] in the whole string. *)
Fixpoint rfind_from (s sub : text) (pos last : Z) : Z :=
  match s with
  | [] => if startswith [] sub then pos else last
  | _ :: s' =>
      rfind_from s' sub (pos + 1) (if startswith s sub then pos else last)
  end.

(** [s.rfind(sub)]: the highest index where [sub] occurs in [s], or [-1]. *)
Definition rfind (s sub : text) : Z := rfind_from s sub 0 (-1).

(** [c.isspace()] *)
Definition isspace (c : char) : bool :=
  ((9 <=? c) && (c <=? 13) || (28 <=? c) && (c <=? 32) || (c =? 133)
   || (c =? 160) || (c =? 5760) || (8192 <=? c) && (c <=? 8202)
   || (c =? 8232) || (c =? 8233) || (c =? 8239) || (c =? 8287)
   || (c =? 12288))%N.

Fixpoint lstrip (s : text) : text :=
  match s with
  | [] => []
  | c :: s' => if isspace c then lstrip s' else s
  end.

Definition rstrip (s : text) : text := rev (lstrip (rev s)).

(** [s.strip()] *)
Definition strip (s : text) : text := rstrip (lstrip s).

(** *** Binary64 numbers

    A finite double is [mant * 2 ^ expo] with [|mant| < 2^53]. *)
Record float : Type := mkfloat { mant : Z; expo : Z }.

(** Round a non-negative integer to 53 significant bits, ties to even: the
    result [(m', sh)] stands for [m' * 2 ^ sh]. *)
Definition round53 (m : Z) : Z * Z :=
  let nbits := Z.log2 m + 1 in
  if nbits <=? 53 then (m, 0)
  else
    let sh := nbits - 53 in
    let q := Z.shiftr m sh in
    let r := m mod 2 ^ sh in
    let half := 2 ^ (sh - 1) in
    if (half <? r) || ((r =? half) && Z.odd q) then (q + 1, sh) else (q, sh).

(** [float(n)] as done for an [int] operand of a float operation: correctly
    rounded, [OverflowError] when the rounded value does not fit. *)
Definition float_of_int (n : Z) : outcome float :=
  let '(m, sh) := round53 (Z.abs n) in
  if 2 ^ 1024 <=? m * 2 ^ sh then Raised OverflowError
  else Returned (mkfloat (Z.sgn n * m) sh).

(** [a * b] for finite doubles whose product stays in the normal range (the
    only product taken below is [float(n) * 0.7], whose magnitude is zero or
    lies between 0.69 and [2^1024]). *)
Definition float_mul (a b : float) : float :=
  let p := mant a * mant b in
  let '(m, sh) := round53 (Z.abs p) in
  mkfloat (Z.sgn p * m) (expo a + expo b + sh).

(** The double written [0.7]: [0x1.6666666666666p-1]. *)
Definition float_0_7 : float := mkfloat 6305039478318694 (-53).

(** [n * 0.7] with an [int] left operand. *)
Definition int_mul_float (n : Z) (b : float) : outcome float :=
  match float_of_int n with
  | Raised e => Raised e
  | Returned a => Returned (float_mul a b)
  end.

(** [p > f] for an [int] [p] and a double [f]: Python compares the exact
    values. *)
Definition int_gt_float (p : Z) (f : float) : bool :=
  if 0 <=? expo f then mant f * 2 ^ expo f <? p
  else mant f <? p * 2 ^ (- expo f).

(** *** Objects

    The Python objects a metadata record can hold.  A [dict] is the list of
    its items in insertion order; [VObject] stands for an object of any
    other class. *)
#[local] Unset Elimination Schemes.
Inductive value : Type :=
| VNone
| VBool (b : bool)
| VInt (n : Z)
| VFloat (f : float)
| VStr (s : text)
| VList (items : list value)
| VTuple (items : list value)
| VDict (items : list (value * value))
| VObject (id : N).
#[local] Set Elimination Schemes.

(** The objects that JSON has a form of their own for: [None], booleans,
    integers, strings, lists of such objects, and dictionaries whose keys
    are strings and whose values are such objects.  (JSON writes a tuple as
    an array and every key as a string, so these are read back as a list and
    as a string; floats include values that are not equal to themselves.) *)
Fixpoint json_plain (v : value) : Prop :=
  match v with
  | VNone | VBool _ | VInt _ | VStr _ => True
  | VList items =>
      fold_right (fun item rest => json_plain item /\ rest) True items
  | VDict items =>
      fold_right
        (fun kv rest =>
           let '(k, v') := kv in
           (exists s, k = VStr s) /\ json_plain v' /\ rest)
        True items
      /\ NoDup (map fst items)
  | VFloat _ | VTuple _ | VObject _ => False
  end.

End Py.

(** ** DocumentParser.chunk_text *)

Module DocumentParser.
Import Py.

(** The literal list of the [for punct in ...] loop, in source order. *)
Definition sentence_endings : list text :=
  [ [dot; space]; [dot; newline]; [bang; space]; [bang; newline];
    [qmark; space]; [qmark; newline] ].

(** The [for punct in ...] loop: the position at which the window is cut, if
    any.  The loop stops at the first [punct] whose last occurrence in
    [chunk] satisfies [last_punct > chunk_size * 0.7]. *)
Fixpoint sentence_break (puncts : list text) (chunk : text) (chunk_size : Z)
  : outcome (option Z) :=
  match puncts with
  | [] => Returned None
  | punct :: rest =>
      let last_punct := rfind chunk punct in
      match int_mul_float chunk_size float_0_7 with
      | Raised e => Raised e
      | Returned limit =>
          if int_gt_float last_punct limit then Returned (Some last_punct)
          else sentence_break rest chunk chunk_size
      end
  end.

(** The window [(chunk, end)] of one iteration, before [strip]. *)
Definition window (t : text) (chunk_size start : Z) : outcome (text * Z) :=
  let end_ := start + chunk_size in
  let chunk := slice t start end_ in
  if end_ <? len t then
    match sentence_break sentence_endings chunk chunk_size with
    | Raised e => Raised e
    | Returned None => Returned (chunk, end_)
    | Returned (Some last_punct) =>
        let chunk' := slice_to chunk (last_punct + 1) in
        Returned (chunk', start + len chunk')
    end
  else Returned (chunk, end_).

(** One iteration of the [while] loop: the chunk appended and the next
    [start]. *)
Definition chunk_step (t : text) (chunk_size overlap start : Z)
  : outcome (text * Z) :=
  match window t chunk_size start with
  | Raised e => Raised e
  | Returned (chunk, end_) => Returned (strip chunk, end_ - overlap)
  end.

(** The [while start < len(text)] loop. *)
Fixpoint chunk_loop (fuel : nat) (t : text) (chunk_size overlap start : Z)
  (chunks : list text) : option (outcome (list text)) :=
  match fuel with
  | O => None
  | S fuel' =>
      if start <? len t then
        match chunk_step t chunk_size overlap start with
        | Raised e => Some (Raised e)
        | Returned (chunk, start') =>
            chunk_loop fuel' t chunk_size overlap start' (chunks ++ [chunk])
        end
      else Some (Returned chunks)
  end.

Definition chunk_text (fuel : nat) (t : text) (chunk_size overlap : Z)
  : option (outcome (list text)) :=
  if len t <=? chunk_size then Some (Returned [t])
  else chunk_loop fuel t chunk_size overlap 0 [].

End DocumentParser.

(** ** VectorStore *)

(** *** The libraries behind the store

    The sentence-embedding model and the similarity index library are not
    part of the repository.  They enter as two interfaces whose laws are the
    contracts the design document gives for them. *)

(** The embedder adapter: [encode] maps a list of texts to one row per text,
    every row [width] numbers wide. *)
Class Embedder (vector : Type) : Type := {
  encode : list Py.text -> list vector;
  width : Z;
  encode_rows : forall texts, length (encode texts) = length texts
}.

(** The array and index libraries and the arithmetic on distances.
    [normalize_L2] and [as_float32] act on one row; [similarity_of distance]
    is [1 / (1 + distance)] in floating point.  [knn xb q k] is the answer of
    a flat index holding the rows [xb] to a query row [q] of the index's
    dimension, for [k > 0]: pairs of a distance and a position, closest
    first.  (The index refuses other queries before it computes anything, see
    [Index_search] below.)  The laws say that a query for [k] neighbours, [k]
    between 1 and the number of stored rows, gives exactly [k] pairs, each at
    the position of a stored row. *)
Class IndexLibrary (vector dist : Type) : Type := {
  normalize_L2 : vector -> vector;
  as_float32 : vector -> vector;
  knn : list vector -> vector -> Z -> list (dist * Z);
  similarity_of : dist -> dist;
  knn_count : forall xb q k,
    0 < k <= Py.len xb -> Py.len (knn xb q k) = k;
  knn_valid : forall xb q k,
    0 < k <= Py.len xb ->
    Forall (fun hit => 0 <= snd hit < Py.len xb) (knn xb q k)
}.

(** The host of the store, as far as the constructor uses it.  [Path s] is
    the text of the path object [Path(s)]; [mkdir p] is
    [p.mkdir(exist_ok=True)], which raises when the parent of [p] is missing,
    when [p] is a file or when the directory may not be made;
    [SentenceTransformer name] loads the embedding model [name], which
    raises when the model is not found or cannot be read.  The model that is
    loaded is the [Embedder] at hand. *)
Class Host : Type := {
  Path : string -> string;
  mkdir : string -> outcome unit;
  SentenceTransformer : string -> outcome unit
}.

Module VectorStore.
Import Py.

(** A metadata record: any dictionary, as the list of its items. *)
Definition dict : Type := list (value * value).

(** The [model_dir] argument of the constructor: a string or a path object,
    the latter given by its text. *)
Inductive pathlike : Type :=
| AsStr (s : string)
| AsPath (p : string).

Section Store.
Context {vector dist : Type}.
Context {embedder : Embedder vector} {lib : IndexLibrary vector dist}.
Context {host : Host}.

(** The flat index ([faiss.IndexFlatL2]): its dimension and its rows in
    insertion order. *)
Record Index : Type := mkIndex { d : Z; xb : list vector }.

Definition ntotal (i : Index) : Z := len (xb i).

Definition IndexFlatL2 (dimension : Z) : Index := mkIndex dimension [].

(** [index.add(x)] for an array [x] with [cols] columns: the rows are
    appended in order; an array of the wrong width is refused. *)
Definition Index_add (i : Index) (cols : Z) (x : list vector) : outcome Index :=
  if cols =? d i then Returned (mkIndex (d i) (xb i ++ x))
  else Raised AssertionError.

(** [index.search(x, k)] for a query array [x] of one row and [cols]
    columns: the index refuses an array of the wrong width and a [k] that is
    not positive. *)
Definition Index_search (i : Index) (cols : Z) (q : vector) (k : Z)
  : outcome (list (dist * Z)) :=
  if cols =? d i then
    if 0 <? k then Returned (knn (xb i) q k) else Raised AssertionError
  else Raised AssertionError.

(** The attributes of [self]. *)
Record Store : Type := mkStore {
  embedding_model_name : string;
  dimension : Z;
  index_type : string;
  model_dir : string;
  index : option Index;
  metadata : list dict
}.

Definition set_index (s : Store) (i : option Index) : Store :=
  mkStore (embedding_model_name s) (dimension s) (index_type s) (model_dir s)
          i (metadata s).

Definition set_metadata (s : Store) (m : list dict) : Store :=
  mkStore (embedding_model_name s) (dimension s) (index_type s) (model_dir s)
          (index s) m.

(** A method runs on the store and on the log of the calls made to
    [embedder.encode]; an exception keeps what was changed before it. *)
Record world : Type := mkWorld { self : Store; encoded : list (list text) }.

Definition M (A : Type) : Type := world -> outcome A * world.

Definition ret {A} (a : A) : M A := fun w => (Returned a, w).

Definition bind {A B} (m : M A) (f : A -> M B) : M B :=
  fun w =>
    match m w with
    | (Returned a, w') => f a w'
    | (Raised e, w') => (Raised e, w')
    end.

Definition raise {A} (e : exn) : M A := fun w => (Raised e, w).

Definition get : M Store := fun w => (Returned (self w), w).

Definition put (s : Store) : M unit :=
  fun w => (Returned tt, mkWorld s (encoded w)).

Definition lift {A} (r : outcome A) : M A := fun w => (r, w).

(** [self.embedder.encode(texts)] followed by [faiss.normalize_L2]. *)
Definition embed (texts : list text) : M (list vector) :=
  fun w =>
    (Returned (map normalize_L2 (encode texts)),
     mkWorld (self w) (encoded w ++ [texts])).

Notation "x <- m ;; f" := (bind m (fun x => f))
  (at level 61, m at next level, right associativity).
Notation "m ;;; f" := (bind m (fun _ => f))
  (at level 61, right associativity).

(** [_create_index] *)
Definition _create_index (s : Store) : outcome Index :=
  if String.eqb (index_type s) "flat" then Returned (IndexFlatL2 (dimension s))
  else if String.eqb (index_type s) "ivf" then Returned (IndexFlatL2 (dimension s))
  else if String.eqb (index_type s) "hnsw" then Returned (IndexFlatL2 (dimension s))
  else Raised (ValueError ("Unsupported index type: " ++ index_type s)).

(** [{'text': text[:100]}] *)
Definition default_metadata (t : text) : dict :=
  [(VStr (str "text"), VStr (slice_to t 100))].

(** The truth value of the [metadata] argument: [None] and the empty list
    are false. *)
Definition supplied (given : option (list dict)) : option (list dict) :=
  match given with
  | Some (r :: rest) => Some (r :: rest)
  | _ => None
  end.

(** [add_documents]; [given] is the [metadata] argument. *)
Definition add_documents (texts : list text) (given : option (list dict))
  : M unit :=
  match texts with
  | [] => ret tt
  | _ :: _ =>
      embeddings <- embed texts ;;
      s <- get ;;
      i <- match index s with
           | Some i => ret i
           | None =>
               i <- lift (_create_index s) ;;
               put (set_index s (Some i)) ;;;
               ret i
           end ;;
      i' <- lift (Index_add i width (map as_float32 embeddings)) ;;
      s <- get ;;
      put (set_index s (Some i')) ;;;
      s <- get ;;
      match supplied given with
      | Some records => put (set_metadata s (metadata s ++ records))
      | None =>
          put (set_metadata s (metadata s ++ map default_metadata texts))
      end
  end.

(** [l[i]] for a Python list. *)
Definition getitem {A} (l : list A) (i : Z) : outcome A :=
  let j := if i <? 0 then i + len l else i in
  if (0 <=? j) && (j <? len l) then
    match nth_error l (Z.to_nat j) with
    | Some x => Returned x
    | None => Raised IndexError
    end
  else Raised IndexError.

(** The [for] loop of [search] over the pairs of a distance and a position. *)
Fixpoint collect (records : list dict) (hits : list (dist * Z))
  (results : list (dist * dict)) : outcome (list (dist * dict)) :=
  match hits with
  | [] => Returned results
  | (distance, idx) :: rest =>
      if idx <? len records then
        match getitem records idx with
        | Raised e => Raised e
        | Returned record =>
            collect records rest (results ++ [(similarity_of distance, record)])
        end
      else collect records rest results
  end.

(** [search] *)
Definition search (query : text) (k : Z) : M (list (dist * dict)) :=
  s <- get ;;
  match index s with
  | None => ret []
  | Some i =>
      if ntotal i =? 0 then ret []
      else
        query_embedding <- embed [query] ;;
        let k := Z.min k (ntotal i) in
        match map as_float32 query_embedding with
        | [] => raise IndexError
        | q :: _ =>
            hits <- lift (Index_search i width q k) ;;
            lift (collect (metadata s) hits [])
        end
  end.

(** [clear] *)
Definition clear : M unit :=
  s <- get ;;
  put (set_metadata (set_index s None) []).

(** What [_load_index] finds in the model directory: for each of the two
    files, whether it exists and, if so, what reading it gives. *)
Record files : Type := mkFiles {
  index_file : option (outcome Index);
  metadata_file : option (outcome (list dict))
}.

Definition no_files : files := mkFiles None None.

(** [_load_index] *)
Definition _load_index (s : Store) (disk : files) : Store :=
  match index_file disk, metadata_file disk with
  | Some read_index, Some read_metadata =>
      match read_index with
      | Raised _ => set_metadata (set_index s None) []
      | Returned i =>
          match read_metadata with
          | Raised _ => set_metadata (set_index s None) []
          | Returned m => set_metadata (set_index s (Some i)) m
          end
      end
  | _, _ => s
  end.

(** The truth value of the [model_dir] argument: [None] and the empty
    string are false, a path object is true. *)
Definition given_dir (model_dir : option pathlike) : option pathlike :=
  match model_dir with
  | Some (AsStr EmptyString) => None
  | other => other
  end.

(** [Path(model_dir) if model_dir else Path("models")] *)
Definition directory (model_dir : option pathlike) : string :=
  match given_dir model_dir with
  | Some (AsStr s) => Path s
  | Some (AsPath p) => p
  | None => Path "models"
  end.

(** [__init__]; [disk] is what [_load_index] finds in the model directory.
    When the directory cannot be made or the embedding model cannot be
    loaded, the exception leaves the constructor and no store is made. *)
Definition __init__ (embedding_model : string) (dimension : Z)
  (index_type : string) (model_dir : option pathlike) (disk : files)
  : outcome Store :=
  let dir := directory model_dir in
  match mkdir dir with
  | Raised e => Raised e
  | Returned _ =>
      match SentenceTransformer embedding_model with
      | Raised e => Raised e
      | Returned _ =>
          Returned
            (_load_index
               (mkStore embedding_model dimension index_type dir None [])
               disk)
      end
  end.

(** Running a method on a store with an empty call log. *)
Definition run {A} (m : M A) (s : Store) : outcome A * world :=
  m (mkWorld s []).

(** The number of vectors in the index; an absent index holds none. *)
Definition index_count (s : Store) : Z :=
  match index s with
  | None => 0
  | Some i => ntotal i
  end.

End Store.
End VectorStore.

(** * Vocabulary of the statements *)

(** ** The chunker *)

Module ChunkerSpec.
Import Py DocumentParser.

(** [sub] occurs in [s] at index [i]. *)
Definition occurs_at (s sub : text) (i : nat) : Prop :=
  (i <= length s)%nat /\ startswith (skipn i s) sub = true.

(** The test of the [for] loop for one terminator. *)
Definition above_limit (chunk : text) (limit : float) (punct : text) : bool :=
  int_gt_float (rfind chunk punct) limit.

(** The chunk emitted for the window [t[s:e]]. *)
Definition chunk_of (t : text) (span : Z * Z) : text :=
  strip (slice t (fst span) (snd span)).

(** The part of the window [t[s:e]] that the next window does not repeat. *)
Definition fresh_part (t : text) (overlap : Z) (span : Z * Z) : text :=
  slice t (fst span) (snd span - overlap).

(** Each window starts [overlap] characters before the end of the previous
    one, and strictly after the previous start. *)
Fixpoint chained (overlap start : Z) (spans : list (Z * Z)) : Prop :=
  match spans with
  | [] => True
  | span :: rest =>
      fst span = start /\ start < snd span - overlap
      /\ chained overlap (snd span - overlap) rest
  end.

(** The cut point as the design document words it: the highest position at
    which any of the six terminators occurs in the window, used when it
    passes the 70% test. *)
Definition last_terminator (chunk : text) : Z :=
  fold_right Z.max (-1) (map (rfind chunk) sentence_endings).

Definition documented_break (chunk : text) (chunk_size : Z)
  : outcome (option Z) :=
  match int_mul_float chunk_size float_0_7 with
  | Raised e => Raised e
  | Returned limit =>
      if int_gt_float (last_terminator chunk) limit
      then Returned (Some (last_terminator chunk))
      else Returned None
  end.

(** The reconstruction the design document describes: the first chunk
    followed by every later chunk without its first [overlap] characters. *)
Definition join_non_overlapping (overlap : Z) (chunks : list text) : text :=
  match chunks with
  | [] => []
  | first :: rest =>
      first ++ concat (map (fun c => slice c overlap (len c)) rest)
  end.

(** *** Sample texts *)

(** The text on which the loop does not advance: the window [t[0:10]] is cut
    after its full stop at index 8, so [end] is 9 and the next [start] is
    [9 - 9]. *)
Definition stuck_text : text := str "aaaaaaaa. bbbbbbbbbb".

(** A text whose first window of 20 characters holds a full stop at index 15
    and a question mark at index 18. *)
Definition two_terminators : text := str "aaaaaaaaaaaaaaa. b? cccccccccccc".

(** A text with blanks where the windows of 4 characters meet. *)
Definition spaced_text : text := str "ab   cd".

End ChunkerSpec.

(** ** The store *)

Module StoreSpec.
Import Py VectorStore.

Section Spec.
Context {vector dist : Type}.
Context {embedder : Embedder vector} {lib : IndexLibrary vector dist}.

#[local] Abbreviation Store := (@Store vector).
#[local] Abbreviation world := (@world vector).
#[local] Abbreviation Index := (@Index vector).

(** The store is aligned when it holds as many metadata records as the
    index holds vectors. *)
Definition aligned (s : Store) : Prop := len (metadata s) = index_count s.

(** The index that [add_documents] inserts into: the one the store has, or
    the one [_create_index] makes. *)
Definition target_index (s : Store) : outcome Index :=
  match index s with
  | Some i => Returned i
  | None => _create_index s
  end.

(** The rows handed to [index.add]. *)
Definition rows_of (texts : list text) : list vector :=
  map as_float32 (map normalize_L2 (encode texts)).

(** The records appended to the metadata list. *)
Definition records_of (texts : list text) (given : option (list dict))
  : list dict :=
  match supplied given with
  | Some records => records
  | None => map default_metadata texts
  end.

(** The metadata argument fits the texts when it is absent or empty, or has
    one record per text. *)
Definition fits (texts : list text) (given : option (list dict)) : Prop :=
  match supplied given with
  | None => True
  | Some records => length records = length texts
  end.

(** A sequence of [add_documents] calls, each run on the store the previous
    one left (whether it returned or raised); the result lists the store
    after each call. *)
Record call : Type := mkCall {
  call_texts : list text;
  call_metadata : option (list dict)
}.

Fixpoint states_after (calls : list call) (w : world) : list Store :=
  match calls with
  | [] => []
  | c :: rest =>
      let w' := snd (add_documents (call_texts c) (call_metadata c) w) in
      self w' :: states_after rest w'
  end.

(** A hit and the result made from it: the similarity of its distance and
    the record at its position. *)
Definition result_of (records : list dict) (hit : dist * Z)
  (r : dist * dict) : Prop :=
  fst r = similarity_of (fst hit)
  /\ nth_error records (Z.to_nat (snd hit)) = Some (snd r).

End Spec.
End StoreSpec.

(** ** A backend with exact arithmetic

    Rows of integers, squared Euclidean distance, and a flat index that
    sorts all rows by distance.  It is used to run the store on concrete
    inputs. *)

Module ExactBackend.
Import Py.

Definition row : Type := list Z.

Definition encode_text (t : text) : row :=
  [len t; fold_right Z.add 0 (map Z.of_N t)].

Definition squared_distance (a b : row) : Z :=
  fold_right Z.add 0 (map (fun p => (fst p - snd p) ^ 2) (combine a b)).

Fixpoint insert_hit (h : Z * Z) (hits : list (Z * Z)) : list (Z * Z) :=
  match hits with
  | [] => [h]
  | h' :: rest =>
      if fst h <=? fst h' then h :: hits else h' :: insert_hit h rest
  end.

Definition sort_hits (hits : list (Z * Z)) : list (Z * Z) :=
  fold_right insert_hit [] hits.

Definition all_hits (xb : list row) (q : row) : list (Z * Z) :=
  combine (map (squared_distance q) xb) (map Z.of_nat (seq 0 (length xb))).

Definition nearest (xb : list row) (q : row) (k : Z) : list (Z * Z) :=
  firstn (Z.to_nat k) (sort_hits (all_hits xb q)).

Lemma length_insert_hit (h : Z * Z) (hits : list (Z * Z)) :
  length (insert_hit h hits) = S (length hits).
Proof.
  induction hits as [|h' rest IH]; simpl; [reflexivity|].
  destruct (fst h <=? fst h'); simpl; [reflexivity | now rewrite IH].
Qed.

Lemma length_sort_hits (hits : list (Z * Z)) :
  length (sort_hits hits) = length hits.
Proof.
  induction hits as [|h rest IH]; simpl; [reflexivity|].
  now rewrite length_insert_hit, IH.
Qed.

Lemma Forall_insert_hit (P : Z * Z -> Prop) (h : Z * Z) (hits : list (Z * Z)) :
  P h -> Forall P hits -> Forall P (insert_hit h hits).
Proof.
  intros Hh. induction 1 as [|h' rest Hh' Hrest IH]; simpl.
  - now constructor.
  - destruct (fst h <=? fst h'); repeat constructor; assumption.
Qed.

Lemma Forall_sort_hits (P : Z * Z -> Prop) (hits : list (Z * Z)) :
  Forall P hits -> Forall P (sort_hits hits).
Proof.
  induction 1; simpl; [constructor | now apply Forall_insert_hit].
Qed.

Lemma Forall_prefix {A} (P : A -> Prop) (n : nat) (l : list A) :
  Forall P l -> Forall P (firstn n l).
Proof.
  intros H. revert n. induction H; intros [|n]; simpl; constructor; auto.
Qed.

Lemma length_all_hits (xb : list row) (q : row) :
  length (all_hits xb q) = length xb.
Proof.
  unfold all_hits. rewrite length_combine, !length_map, length_seq. lia.
Qed.

Lemma all_hits_valid (xb : list row) (q : row) :
  Forall (fun hit => 0 <= snd hit < len xb) (all_hits xb q).
Proof.
  apply Forall_forall. intros [dist pos] Hin. unfold all_hits in Hin.
  apply in_combine_r in Hin. apply in_map_iff in Hin as (n & <- & Hn).
  apply in_seq in Hn. unfold len. simpl. lia.
Qed.

Definition exact_embedder : Embedder row :=
  {| encode := map encode_text;
     width := 2;
     encode_rows := fun texts => length_map encode_text texts |}.

Lemma nearest_count (xb : list row) (q : row) (k : Z) :
  0 < k <= len xb -> len (nearest xb q k) = k.
Proof.
  intros Hk. unfold nearest, len in *.
  rewrite length_firstn, length_sort_hits, length_all_hits. lia.
Qed.

Lemma nearest_valid (xb : list row) (q : row) (k : Z) :
  0 < k <= len xb ->
  Forall (fun hit => 0 <= snd hit < len xb) (nearest xb q k).
Proof.
  intros _. unfold nearest. apply Forall_prefix, Forall_sort_hits, all_hits_valid.
Qed.

Definition exact_index : IndexLibrary row Z :=
  {| normalize_L2 := fun v => v;
     as_float32 := fun v => v;
     knn := nearest;
     similarity_of := fun distance => distance;
     knn_count := nearest_count;
     knn_valid := nearest_valid |}.

(** A host whose paths are written as given and on which the directory
    "models" and every directory next to it can be made, but no directory
    below "nonexistent", which is missing; the one embedding model it has is
    called "exact". *)
Definition exact_host : Host :=
  {| Path := fun s => s;
     mkdir := fun p =>
       if String.prefix "nonexistent/" p
       then Raised (FileNotFoundError
                      ("[Errno 2] No such file or directory: '" ++ p ++ "'"))
       else Returned tt;
     SentenceTransformer := fun name =>
       if String.eqb name "exact" then Returned tt
       else Raised (LibraryError ("no model named " ++ name)) |}.

End ExactBackend.

(** ** Sample stores *)

Module Samples.
Import Py VectorStore StoreSpec ExactBackend.

#[local] Existing Instance exact_embedder.
#[local] Existing Instance exact_index.
#[local] Existing Instance exact_host.

(** The store made by [VectorStore("exact", index_type="flat", dimension=2)]
    over the exact backend, with nothing persisted. *)
Definition fresh : @Store row := mkStore "exact" 2 "flat" "models" None [].

Definition one_record : dict := [(VStr (str "source"), VStr (str "cv.pdf"))].

Definition empty_world : @world row := mkWorld fresh [].

Definition two_texts : list text := [str "alpha"; str "beta"].

(** The index [_create_index] makes for [fresh]. *)
Definition created : @Index row := IndexFlatL2 2.

(** A store holding three documents with their default metadata. *)
Definition three_documents : @world row :=
  snd (run (add_documents [str "a"; str "bb"; str "ccc"] None) fresh).

Definition three_rows : @Index row :=
  mkIndex 2 (rows_of [str "a"; str "bb"; str "ccc"]).

(** An index of dimension 3 with three rows, as a store has it that was
    constructed on the files a store with another embedding model saved. *)
Definition wide_rows : @Index row :=
  mkIndex 3 [[1; 0; 0]; [0; 2; 0]; [0; 0; 3]].

Definition reloaded : @world row :=
  mkWorld
    (mkStore "exact" 3 "flat" "models" (Some wide_rows)
       (map default_metadata [str "a"; str "bb"; str "ccc"]))
    [].

End Samples.

(** * Properties *)

(** ** Slices *)

Module PyFacts.
Import Py ChunkerSpec.

Lemma len_nonneg {A} (s : list A) : 0 <= len s.
Proof. unfold len; lia. Qed.

Lemma len_app {A} (s1 s2 : list A) : len (s1 ++ s2) = len s1 + len s2.
Proof. unfold len; rewrite length_app; lia. Qed.

Lemma firstn_plus {A} (k m : nat) (l : list A) :
  firstn (k + m) l = firstn k l ++ firstn m (skipn k l).
Proof.
  revert l; induction k as [|k IH]; intros l; simpl; [reflexivity|].
  destruct l as [|x l]; simpl.
  - now rewrite firstn_nil.
  - now rewrite IH.
Qed.

(** With non-negative bounds the clipping is the one [firstn] and [skipn]
    already do. *)
Lemma slice_nonneg {A} (s : list A) (i j : Z) :
  0 <= i -> 0 <= j ->
  slice s i j = firstn (Z.to_nat j - Z.to_nat i) (skipn (Z.to_nat i) s).
Proof.
  intros Hi Hj. unfold slice, slice_bound, len.
  destruct (Z.ltb_spec i 0) as [?|_]; [lia|].
  destruct (Z.ltb_spec j 0) as [?|_]; [lia|].
  set (n := length s).
  destruct (Z.le_gt_cases (Z.of_nat n) i) as [Hge|Hlt].
  - rewrite (Z.min_r i) by lia.
    rewrite !skipn_all2 by (fold n; lia).
    now rewrite !firstn_nil.
  - rewrite (Z.min_l i) by lia.
    destruct (Z.le_gt_cases (Z.of_nat n) j) as [Hj'|Hj'].
    + rewrite (Z.min_r j) by lia.
      rewrite !firstn_all2; [reflexivity| |]; rewrite length_skipn; fold n; lia.
    + rewrite (Z.min_l j) by lia. f_equal. lia.
Qed.

Lemma len_slice_le {A} (s : list A) (i j : Z) :
  0 <= i -> i <= j -> len (slice s i j) <= j - i.
Proof.
  intros Hi Hj. rewrite slice_nonneg by lia. unfold len.
  rewrite length_firstn. lia.
Qed.

Lemma len_slice {A} (s : list A) (i j : Z) :
  0 <= i -> i <= j -> j <= len s -> len (slice s i j) = j - i.
Proof.
  intros Hi Hj Hn. rewrite slice_nonneg by lia. unfold len in *.
  rewrite length_firstn, length_skipn. lia.
Qed.

(** A slice is never longer than the distance between its bounds, also when
    a bound is negative. *)
Lemma len_slice_any {A} (s : list A) (i j : Z) :
  i <= j -> len (slice s i j) <= j - i.
Proof.
  intros Hij. unfold slice, slice_bound, len.
  rewrite length_firstn, length_skipn.
  destruct (i <? 0) eqn:Hi, (j <? 0) eqn:Hj; lia.
Qed.

Lemma slice_app {A} (s : list A) (a b c : Z) :
  0 <= a -> a <= b -> b <= c -> slice s a b ++ slice s b c = slice s a c.
Proof.
  intros Ha Hb Hc. rewrite !slice_nonneg by lia.
  replace (Z.to_nat c - Z.to_nat a)%nat
    with ((Z.to_nat b - Z.to_nat a) + (Z.to_nat c - Z.to_nat b))%nat by lia.
  rewrite firstn_plus, skipn_skipn.
  do 3 f_equal. lia.
Qed.

Lemma slice_empty {A} (s : list A) (a b : Z) :
  0 <= a -> len s <= a -> slice s a b = [].
Proof.
  intros Ha Hn. unfold slice, slice_bound.
  destruct (Z.ltb_spec a 0); [lia|].
  rewrite (Z.min_r a) by lia.
  rewrite skipn_all2 by (unfold len in *; lia).
  apply firstn_nil.
Qed.

Lemma slice_all {A} (s : list A) (b : Z) : len s <= b -> slice s 0 b = s.
Proof.
  intros Hb. pose proof (len_nonneg s).
  rewrite slice_nonneg by lia. simpl.
  apply firstn_all2. unfold len in *; lia.
Qed.

Lemma len_slice_le_len {A} (s : list A) (i j : Z) : len (slice s i j) <= len s.
Proof.
  unfold slice, len. rewrite length_firstn, length_skipn. lia.
Qed.

Lemma slice_clip {A} (s : list A) (a b : Z) :
  0 <= a -> len s <= b -> slice s a b = slice s a (len s).
Proof.
  intros Ha Hb. pose proof (len_nonneg s).
  rewrite !slice_nonneg by lia. unfold len in *.
  rewrite !firstn_all2; [reflexivity| |]; rewrite length_skipn; lia.
Qed.

(** Cutting a window [s[a:b]] at [k] is the window [s[a:a+k]]. *)
Lemma slice_to_slice {A} (s : list A) (a b k : Z) :
  0 <= a -> 0 <= k -> a + k <= b ->
  slice_to (slice s a b) k = slice s a (a + k).
Proof.
  intros Ha Hk Hb. unfold slice_to.
  rewrite (slice_nonneg (slice s a b)) by lia.
  rewrite !slice_nonneg by lia. simpl.
  rewrite firstn_firstn. f_equal. lia.
Qed.

(** *** [rfind] returns the last occurrence *)

Lemma rfind_from_spec (s sub : text) : forall pos last,
  (rfind_from s sub pos last = last /\ forall i, ~ occurs_at s sub i)
  \/ exists i, rfind_from s sub pos last = pos + Z.of_nat i
               /\ occurs_at s sub i
               /\ forall j, (i < j)%nat -> ~ occurs_at s sub j.
Proof.
  induction s as [|c s IH]; intros pos last.
  - cbn [rfind_from]. destruct (startswith [] sub) eqn:E.
    + right. exists 0%nat. split; [lia|]. split.
      * split; [simpl; lia | exact E].
      * intros j Hj [Hle _]. simpl in Hle. lia.
    + left. split; [reflexivity|].
      intros i [Hle Hi]. simpl in Hle.
      assert (i = 0)%nat by lia. subst i. cbn [skipn] in Hi. congruence.
  - cbn [rfind_from].
    destruct (IH (pos + 1) (if startswith (c :: s) sub then pos else last))
      as [[Hr Hno] | (i & Hr & [Hle Hi] & Hmax)].
    + destruct (startswith (c :: s) sub) eqn:E.
      * right. exists 0%nat. split; [lia|]. split.
        -- split; [simpl; lia | exact E].
        -- intros [|j] Hj [Hle Hocc]; [lia|].
           apply (Hno j). split; [simpl in Hle; lia | exact Hocc].
      * left. split; [exact Hr|].
        intros [|i] [Hle Hocc].
        -- cbn [skipn] in Hocc. congruence.
        -- apply (Hno i). split; [simpl in Hle; lia | exact Hocc].
    + right. exists (S i). split; [rewrite Hr; lia|]. split.
      * split; [simpl; lia | exact Hi].
      * intros [|j] Hj [Hle' Hocc]; [lia|].
        apply (Hmax j); [lia|]. split; [simpl in Hle'; lia | exact Hocc].
Qed.

(** [rfind] is [-1] when [sub] does not occur, and otherwise the highest
    index at which it occurs. *)
Lemma rfind_spec (s sub : text) :
  (rfind s sub = -1 /\ forall i, ~ occurs_at s sub i)
  \/ exists i, rfind s sub = Z.of_nat i
               /\ occurs_at s sub i
               /\ forall j, (i < j)%nat -> ~ occurs_at s sub j.
Proof.
  unfold rfind.
  destruct (rfind_from_spec s sub 0 (-1)) as [H | (i & Hr & H)].
  - now left.
  - right. exists i. now rewrite Hr.
Qed.

Lemma occurs_at_lt (s sub : text) (i : nat) :
  sub <> [] -> occurs_at s sub i -> (i < length s)%nat.
Proof.
  intros Hsub [Hle Hocc].
  destruct (Nat.eq_dec i (length s)) as [->|]; [|lia].
  rewrite skipn_all in Hocc. destruct sub; [congruence | discriminate].
Qed.

Lemma rfind_range (s sub : text) :
  sub <> [] -> -1 <= rfind s sub < Z.max 0 (len s).
Proof.
  intros Hsub. pose proof (len_nonneg s).
  destruct (rfind_spec s sub) as [[-> _] | (i & -> & Hocc & _)].
  - lia.
  - apply (occurs_at_lt _ _ _ Hsub) in Hocc. unfold len. lia.
Qed.

(** *** [strip] only removes characters *)

Lemma length_lstrip (s : text) : (length (lstrip s) <= length s)%nat.
Proof.
  induction s as [|c s IH]; simpl; [lia|].
  destruct (isspace c); simpl; lia.
Qed.

Lemma len_strip (s : text) : len (strip s) <= len s.
Proof.
  unfold strip, rstrip, len. rewrite length_rev.
  pose proof (length_lstrip (rev (lstrip s))) as H1.
  rewrite length_rev in H1.
  pose proof (length_lstrip s). lia.
Qed.

(** *** Rounding to 53 bits *)

Lemma round53_exact (m : Z) : 0 <= m < 2 ^ 53 -> round53 m = (m, 0).
Proof.
  intros Hm. unfold round53.
  destruct (Z.leb_spec (Z.log2 m + 1) 53) as [_|Hgt]; [reflexivity|].
  exfalso. assert (0 < m) as Hpos.
  { destruct (Z.eq_dec m 0) as [->|]; [simpl in Hgt; lia | lia]. }
  pose proof (Z.log2_lt_pow2 m 53 Hpos) as [Hlog _]. lia.
Qed.

(** The rounded value is within one unit in the last place of [m], and that
    unit is at most [m / 2^52]. *)
Lemma round53_bounds (m : Z) :
  0 <= m ->
  let '(m', sh) := round53 m in
  0 <= sh /\ 0 <= m' /\
  m - 2 ^ sh < m' * 2 ^ sh <= m + 2 ^ sh /\
  (sh = 0 /\ m' = m \/ 0 < sh /\ 2 ^ 52 * 2 ^ sh <= m).
Proof.
  intros Hm. unfold round53.
  destruct (Z.leb_spec (Z.log2 m + 1) 53) as [_|Hgt].
  - change (2 ^ 0) with 1. lia.
  - set (sh := Z.log2 m + 1 - 53).
    assert (0 < sh) as Hsh by (unfold sh; lia).
    assert (0 < m) as Hpos.
    { destruct (Z.eq_dec m 0) as [->|]; [simpl in Hgt; lia | lia]. }
    assert (0 < 2 ^ sh) as Hpow by (apply Z.pow_pos_nonneg; lia).
    rewrite Z.shiftr_div_pow2 by lia.
    pose proof (Z.div_mod m (2 ^ sh) ltac:(lia)) as Hdm.
    pose proof (Z.mod_pos_bound m (2 ^ sh) Hpow) as Hr.
    assert (0 <= m / 2 ^ sh) as Hq by (apply Z.div_pos; lia).
    assert (2 ^ 52 * 2 ^ sh <= m) as Hulp.
    { rewrite <- Z.pow_add_r by lia.
      replace (52 + sh) with (Z.log2 m) by (unfold sh; lia).
      apply Z.log2_spec; lia. }
    set (q := m / 2 ^ sh) in *. set (r := m mod 2 ^ sh) in *.
    destruct ((2 ^ (sh - 1) <? r) || ((r =? 2 ^ (sh - 1)) && Z.odd q));
      (split; [lia|]); (split; [lia|]); (split; [nia|]); right; lia.
Qed.

(** Integers below [2^1023] in magnitude convert without overflow. *)
Lemma float_of_int_returns (n : Z) :
  Z.abs n < 2 ^ 1023 -> exists f, float_of_int n = Returned f.
Proof.
  intros Hn. unfold float_of_int.
  pose proof (round53_bounds (Z.abs n) (Z.abs_nonneg n)) as H.
  destruct (round53 (Z.abs n)) as [m sh].
  destruct H as (Hsh & Hm & [_ Hup] & Hulp).
  assert (0 < 2 ^ sh) as Hpow by (apply Z.pow_pos_nonneg; lia).
  assert (m * 2 ^ sh < 2 ^ 1024) as Hlt.
  { change (2 ^ 1024) with (2 * 2 ^ 1023).
    destruct Hulp as [[-> ->]|[_ Hulp]];
      [change (2 ^ 0) with 1 in *|]; lia. }
  destruct (Z.leb_spec (2 ^ 1024) (m * 2 ^ sh)); [lia|].
  eexists; reflexivity.
Qed.

Lemma float_of_int_exact (n : Z) :
  0 <= n < 2 ^ 53 -> float_of_int n = Returned (mkfloat n 0).
Proof.
  intros Hn. unfold float_of_int.
  rewrite Z.abs_eq by lia. rewrite round53_exact by lia.
  destruct (Z.leb_spec (2 ^ 1024) (n * 2 ^ 0)) as [Hge|_].
  - exfalso. change (2 ^ 0) with 1 in Hge.
    assert (2 ^ 53 < 2 ^ 1024) by (apply Z.pow_lt_mono_r; lia). lia.
  - do 2 f_equal. destruct n; simpl; lia.
Qed.

Lemma float_mul_0_7 (n : Z) :
  float_mul (mkfloat n 0) float_0_7 =
  let '(m, sh) := round53 (Z.abs (n * 6305039478318694)) in
  mkfloat (Z.sgn (n * 6305039478318694) * m) (sh - 53).
Proof.
  unfold float_mul, float_0_7, mant, expo.
  destruct (round53 _) as [m sh]. f_equal. lia.
Qed.

(** A position that passes the test [p > chunk_size * 0.7] lies, as an exact
    number, above [0.7 * chunk_size - 1]. *)
Lemma above_limit_lower_bound (chunk_size p : Z) (limit : float) :
  0 < chunk_size <= 2 ^ 52 ->
  int_mul_float chunk_size float_0_7 = Returned limit ->
  int_gt_float p limit = true ->
  7 * chunk_size < 10 * (p + 1).
Proof.
  intros Hcs Hmul Hgt. unfold int_mul_float in Hmul.
  assert (2 ^ 52 < 2 ^ 53) as H5253 by (apply Z.pow_lt_mono_r; lia).
  rewrite float_of_int_exact in Hmul by lia.
  injection Hmul as <-. rewrite float_mul_0_7 in Hgt.
  set (P := chunk_size * 6305039478318694) in *.
  assert (0 < P) as HP by (unfold P; lia).
  pose proof (round53_bounds (Z.abs P) (Z.abs_nonneg P)) as H.
  destruct (round53 (Z.abs P)) as [m sh].
  rewrite Z.abs_eq in H by lia.
  destruct H as (Hsh & Hm & [Hlo _] & Hulp).
  unfold int_gt_float, mant, expo in Hgt.
  rewrite Z.sgn_pos in Hgt by lia.
  assert (0 < 2 ^ sh) as Hpow by (apply Z.pow_pos_nonneg; lia).
  change (2 ^ 52) with 4503599627370496 in *.
  change (2 ^ 53) with 9007199254740992 in *.
  assert (sh <= 52) as Hsh52.
  { destruct Hulp as [[-> _]|[_ Hulp]]; [lia|].
    destruct (Z.le_gt_cases sh 52) as [|Hbig]; [assumption|exfalso].
    assert (2 ^ 53 <= 2 ^ sh) as Hle by (apply Z.pow_le_mono_r; lia).
    change (2 ^ 53) with 9007199254740992 in Hle.
    unfold P in *. nia. }
  destruct (Z.leb_spec 0 (sh - 53)) as [?|_]; [lia|].
  apply Z.ltb_lt in Hgt.
  replace (- (sh - 53)) with (53 - sh) in Hgt by lia.
  assert (2 ^ (53 - sh) * 2 ^ sh = 9007199254740992) as Hsplit.
  { rewrite <- Z.pow_add_r by lia.
    replace (53 - sh + sh) with 53 by lia. reflexivity. }
  assert (m * 2 ^ sh < p * 9007199254740992) as Hgt'.
  { rewrite <- Hsplit. nia. }
  clear Hgt Hsplit. unfold P in *.
  destruct Hulp as [[-> ->]|[_ Hulp]]; [change (2 ^ 0) with 1 in *|]; lia.
Qed.

End PyFacts.

(** ** The chunker *)

Module ChunkerFacts.
Import Py PyFacts DocumentParser ChunkerSpec.

(** *** Running the loop *)

Lemma chunk_loop_unfold (fuel : nat) (t : text) (chunk_size overlap start : Z)
  (chunks : list text) :
  chunk_loop (S fuel) t chunk_size overlap start chunks =
  if start <? len t then
    match chunk_step t chunk_size overlap start with
    | Raised e => Some (Raised e)
    | Returned (chunk, start') =>
        chunk_loop fuel t chunk_size overlap start' (chunks ++ [chunk])
    end
  else Some (Returned chunks).
Proof. reflexivity. Qed.

(** More fuel does not change a result. *)
Lemma chunk_loop_more_fuel (t : text) (chunk_size overlap : Z) :
  forall fuel fuel' start chunks r,
    (fuel <= fuel')%nat ->
    chunk_loop fuel t chunk_size overlap start chunks = Some r ->
    chunk_loop fuel' t chunk_size overlap start chunks = Some r.
Proof.
  induction fuel as [|fuel IH]; intros fuel' start chunks r Hle Hrun.
  - discriminate.
  - destruct fuel' as [|fuel']; [lia|].
    rewrite chunk_loop_unfold in *.
    destruct (start <? len t); [|exact Hrun].
    destruct (chunk_step t chunk_size overlap start) as [[chunk start']|e];
      [|exact Hrun].
    apply IH with (fuel' := fuel') in Hrun; [exact Hrun | lia].
Qed.

(** An iteration that leaves [start] where it was repeats for ever. *)
Lemma chunk_loop_stuck (t : text) (chunk_size overlap start : Z) (chunk : text) :
  start < len t ->
  chunk_step t chunk_size overlap start = Returned (chunk, start) ->
  forall fuel chunks, chunk_loop fuel t chunk_size overlap start chunks = None.
Proof.
  intros Hlt Hstep. induction fuel as [|fuel IH]; intros chunks.
  - reflexivity.
  - rewrite chunk_loop_unfold, Hstep.
    destruct (Z.ltb_spec start (len t)); [apply IH | lia].
Qed.

(** The early return of [chunk_text]. *)
Lemma chunk_text_fits (fuel : nat) (t : text) (chunk_size overlap : Z) :
  len t <= chunk_size ->
  chunk_text fuel t chunk_size overlap = Some (Returned [t]).
Proof.
  intros Hlen. unfold chunk_text.
  destruct (Z.leb_spec (len t) chunk_size); [reflexivity | lia].
Qed.

(** *** The sentence-boundary search *)

(** The [for] loop returns the last occurrence of the first terminator, in
    list order, that passes the test, and [None] when none passes. *)
Lemma sentence_break_spec (chunk : text) (chunk_size : Z) (limit : float) :
  int_mul_float chunk_size float_0_7 = Returned limit ->
  forall puncts,
    (sentence_break puncts chunk chunk_size = Returned None
     /\ Forall (fun q => above_limit chunk limit q = false) puncts)
    \/ exists before punct after,
         puncts = before ++ punct :: after
         /\ Forall (fun q => above_limit chunk limit q = false) before
         /\ above_limit chunk limit punct = true
         /\ sentence_break puncts chunk chunk_size
            = Returned (Some (rfind chunk punct)).
Proof.
  intros Hlimit. induction puncts as [|punct rest IH].
  - left. split; [reflexivity | constructor].
  - cbn [sentence_break]. rewrite Hlimit.
    destruct (int_gt_float (rfind chunk punct) limit) eqn:Hgt.
    + right. exists [], punct, rest. repeat split; [constructor | exact Hgt].
    + destruct IH as [[Hnone Hall] | (before & q & after & -> & Hall & Hq & Hres)].
      * left. split; [exact Hnone | constructor; [exact Hgt | exact Hall]].
      * right. exists (punct :: before), q, after.
        repeat split; [constructor; [exact Hgt | exact Hall] | exact Hq | exact Hres].
Qed.

Lemma sentence_endings_nonempty (punct : text) :
  In punct sentence_endings -> punct <> [].
Proof.
  unfold sentence_endings. simpl.
  intros [<-|[<-|[<-|[<-|[<-|[<-|[]]]]]]]; discriminate.
Qed.

(** For a non-negative chunk size the limit is non-negative, so a position
    that passes the test is positive. *)
Lemma limit_nonneg (chunk_size : Z) (limit : float) :
  0 <= chunk_size ->
  int_mul_float chunk_size float_0_7 = Returned limit ->
  0 <= mant limit.
Proof.
  intros Hcs. unfold int_mul_float, float_of_int.
  pose proof (round53_bounds (Z.abs chunk_size) (Z.abs_nonneg _)) as H.
  destruct (round53 (Z.abs chunk_size)) as [m sh].
  destruct H as (_ & Hm & _).
  destruct (2 ^ 1024 <=? m * 2 ^ sh); [discriminate|].
  intros [= <-]. unfold float_mul, float_0_7, mant, expo.
  set (p := Z.sgn chunk_size * m * 6305039478318694).
  assert (0 <= p) as Hp.
  { unfold p. destruct chunk_size; simpl Z.sgn; lia. }
  pose proof (round53_bounds (Z.abs p) (Z.abs_nonneg _)) as H.
  destruct (round53 (Z.abs p)) as [m' sh'].
  destruct H as (_ & Hm' & _).
  destruct p; simpl Z.sgn; lia.
Qed.

Lemma above_limit_positive (p : Z) (limit : float) :
  0 <= mant limit -> int_gt_float p limit = true -> 0 < p.
Proof.
  unfold int_gt_float. intros Hm.
  destruct (Z.leb_spec 0 (expo limit)) as [He|He]; intros Hgt%Z.ltb_lt.
  - assert (0 <= 2 ^ expo limit) by (apply Z.pow_nonneg; lia). nia.
  - assert (0 < 2 ^ (- expo limit)) by (apply Z.pow_pos_nonneg; lia). nia.
Qed.

(** *** Windows when the overlap is at most 70% of the chunk size *)

Lemma window_advances (t : text) (chunk_size start : Z) :
  0 < chunk_size <= 2 ^ 52 -> 0 <= start ->
  exists e, window t chunk_size start = Returned (slice t start e, e)
            /\ e <= start + chunk_size
            /\ 7 * chunk_size < 10 * (e - start).
Proof.
  intros Hcs Hstart. unfold window.
  assert (2 ^ 52 < 2 ^ 53) as H5253 by (apply Z.pow_lt_mono_r; lia).
  assert (int_mul_float chunk_size float_0_7
          = Returned (float_mul (mkfloat chunk_size 0) float_0_7)) as Hlimit.
  { unfold int_mul_float. now rewrite float_of_int_exact by lia. }
  set (chunk := slice t start (start + chunk_size)).
  destruct (Z.ltb_spec (start + chunk_size) (len t)) as [Hend|Hend].
  - destruct (sentence_break_spec chunk _ _ Hlimit sentence_endings)
      as [[-> _] | (before & punct & after & Hsplit & _ & Habove & ->)].
    + exists (start + chunk_size). split; [reflexivity | lia].
    + unfold above_limit in Habove.
      pose proof (above_limit_lower_bound _ _ _ Hcs Hlimit Habove) as Hlow.
      assert (punct <> []) as Hne.
      { apply sentence_endings_nonempty. rewrite Hsplit.
        apply in_or_app. right. now left. }
      pose proof (rfind_range chunk punct Hne) as Hrange.
      pose proof (len_slice_le t start (start + chunk_size) Hstart ltac:(lia))
        as Hlen.
      fold chunk in Hlen.
      set (p := rfind chunk punct) in *.
      exists (start + (p + 1)).
      unfold chunk. rewrite slice_to_slice by lia.
      rewrite len_slice by lia.
      split; [do 2 f_equal; lia | lia].
  - exists (start + chunk_size). split; [reflexivity | lia].
Qed.

Lemma chunk_loop_covers (t : text) (chunk_size overlap : Z) :
  0 < chunk_size <= 2 ^ 52 -> 10 * overlap <= 7 * chunk_size ->
  forall n start acc,
    0 <= start -> len t - start <= Z.of_nat n ->
    exists spans,
      chunk_loop (S n) t chunk_size overlap start acc
        = Some (Returned (acc ++ map (chunk_of t) spans))
      /\ chained overlap start spans
      /\ concat (map (fresh_part t overlap) spans) = slice t start (len t)
      /\ Forall (fun span => 0 <= fst span
                             /\ fst span <= snd span <= fst span + chunk_size)
           spans.
Proof.
  intros Hcs Hov. induction n as [|n IH]; intros start acc Hstart Hmeasure;
    rewrite chunk_loop_unfold;
    destruct (Z.ltb_spec start (len t)) as [Hlt|Hge]; try lia.
  - exists []. simpl. rewrite app_nil_r, slice_empty by lia.
    repeat split. constructor.
  - unfold chunk_step.
    destruct (window_advances t chunk_size start Hcs Hstart)
      as (e & -> & Hle & Hadv).
    destruct (IH (e - overlap) (acc ++ [strip (slice t start e)])
                ltac:(lia) ltac:(lia))
      as (spans & Hrun & Hchain & Hcat & Hall).
    exists ((start, e) :: spans). split; [|split; [|split]].
    + rewrite Hrun, <- app_assoc. reflexivity.
    + simpl. repeat split; [lia | exact Hchain].
    + cbn [map concat]. rewrite Hcat. unfold fresh_part. simpl fst; simpl snd.
      destruct (Z.le_gt_cases (e - overlap) (len t)) as [Hin|Hout].
      * apply slice_app; lia.
      * rewrite (slice_empty t (e - overlap)), app_nil_r by lia.
        apply slice_clip; lia.
    + constructor; [simpl; lia | exact Hall].
  - exists []. simpl. rewrite app_nil_r, slice_empty by lia.
    repeat split. constructor.
Qed.

(** *** No exception for chunk sizes in the range of a double *)

Lemma chunk_step_returns (t : text) (chunk_size overlap start : Z) :
  Z.abs chunk_size < 2 ^ 1023 ->
  exists chunk start', chunk_step t chunk_size overlap start
                       = Returned (chunk, start').
Proof.
  intros Hcs. unfold chunk_step, window.
  destruct (float_of_int_returns chunk_size Hcs) as [f Hf].
  assert (int_mul_float chunk_size float_0_7
          = Returned (float_mul f float_0_7)) as Hlimit.
  { unfold int_mul_float. now rewrite Hf. }
  destruct (start + chunk_size <? len t); [|eexists _, _; reflexivity].
  destruct (sentence_break_spec (slice t start (start + chunk_size)) _ _
              Hlimit sentence_endings)
    as [[-> _] | (before & punct & after & _ & _ & _ & ->)];
    eexists _, _; reflexivity.
Qed.

Lemma chunk_loop_no_exception (t : text) (chunk_size overlap : Z) :
  Z.abs chunk_size < 2 ^ 1023 ->
  forall fuel start chunks e,
    chunk_loop fuel t chunk_size overlap start chunks <> Some (Raised e).
Proof.
  intros Hcs. induction fuel as [|fuel IH]; intros start chunks e.
  - discriminate.
  - rewrite chunk_loop_unfold.
    destruct (start <? len t); [|discriminate].
    destruct (chunk_step_returns t chunk_size overlap start Hcs)
      as (chunk & start' & ->).
    apply IH.
Qed.

(** *** An overlap that is not smaller than the chunk size *)

Lemma window_end_le (t : text) (chunk_size start : Z) (chunk : text) (e : Z) :
  0 <= chunk_size ->
  window t chunk_size start = Returned (chunk, e) ->
  e <= start + chunk_size.
Proof.
  intros Hcs. unfold window.
  pose proof (len_slice_any t start (start + chunk_size) ltac:(lia)) as Hlen.
  set (whole := slice t start (start + chunk_size)) in *.
  destruct (start + chunk_size <? len t); [|intros [= _ <-]; lia].
  destruct (sentence_break sentence_endings whole chunk_size) as [[p|]|];
    [| intros [= _ <-]; lia | discriminate].
  intros [= _ <-]. unfold slice_to.
  pose proof (len_slice_le_len whole 0 (p + 1)). lia.
Qed.

Lemma chunk_loop_overlap_ge_size (t : text) (chunk_size overlap : Z) :
  0 <= chunk_size <= overlap -> 0 < len t ->
  forall fuel start chunks result,
    start <= 0 ->
    chunk_loop fuel t chunk_size overlap start chunks
    <> Some (Returned result).
Proof.
  intros Hov Hlen. induction fuel as [|fuel IH]; intros start chunks result Hstart.
  - discriminate.
  - rewrite chunk_loop_unfold.
    destruct (Z.ltb_spec start (len t)); [|lia].
    unfold chunk_step.
    destruct (window t chunk_size start) as [[chunk e]|err] eqn:Hwin;
      [|discriminate].
    apply window_end_le in Hwin; [|lia].
    apply IH. lia.
Qed.

End ChunkerFacts.

(** ** Statements about [chunk_text] *)

Module Chunker.
Import Py PyFacts DocumentParser ChunkerSpec ChunkerFacts.

(** C5. A text that is not longer than the chunk size is returned as the
    single chunk, exactly as it was given: no character is trimmed, and the
    overlap plays no role. *)
Theorem chunk_text_short (fuel : nat) (t : text) (chunk_size overlap : Z) :
  len t <= chunk_size ->
  chunk_text fuel t chunk_size overlap = Some (Returned [t]).
Proof. apply chunk_text_fits. Qed.

Lemma chunk_text_short_witness :
  len (str "  padded  ") <= 500
  /\ chunk_text 0 (str "  padded  ") 500 50 = Some (Returned [str "  padded  "]).
Proof.
  split; [vm_compute; discriminate | apply chunk_text_short].
  vm_compute; discriminate.
Defined.

(** C3. With chunk size 10 and overlap 9 (so [0 <= overlap < chunk_size])
    the call on [stuck_text] returns for no amount of fuel: every iteration
    starts again at [start = 0]. *)
Theorem chunk_text_overlap_9_of_10_never_returns :
  forall fuel, chunk_text fuel stuck_text 10 9 = None.
Proof.
  intros fuel. unfold chunk_text.
  replace (len stuck_text <=? 10) with false by reflexivity.
  apply chunk_loop_stuck with (chunk := str "aaaaaaaa.").
  - vm_compute; reflexivity.
  - vm_compute; reflexivity.
Qed.

(** C4, as stated, fails: with an overlap larger than the chunk size the
    call on a short text returns the text, and the call on a longer text is
    still running after a thousand iterations; neither raises. *)
Lemma chunk_text_overlap_not_rejected :
  7 >= 5
  /\ chunk_text 1 (str "abc") 5 7 = Some (Returned [str "abc"])
  /\ chunk_text 1000 (str "abcdefghij") 5 7 = None.
Proof.
  split; [lia|]. split; vm_compute; reflexivity.
Qed.

(** C4, amended. [chunk_text] does not compare the overlap with the chunk
    size.  When the overlap is not smaller than the chunk size, a text that
    fits in one chunk is returned as that chunk, and no exception is raised
    for any text as long as the chunk size is below [2^1023] in magnitude
    (the range in which [chunk_size * 0.7] is computed without overflow). *)
Theorem chunk_text_overlap_unchecked (fuel : nat) (t : text)
  (chunk_size overlap : Z) :
  overlap >= chunk_size ->
  (len t <= chunk_size ->
   chunk_text fuel t chunk_size overlap = Some (Returned [t]))
  /\ (Z.abs chunk_size < 2 ^ 1023 ->
      forall e, chunk_text fuel t chunk_size overlap <> Some (Raised e)).
Proof.
  intros _. split.
  - apply chunk_text_fits.
  - intros Hcs e. unfold chunk_text.
    destruct (len t <=? chunk_size); [discriminate|].
    now apply chunk_loop_no_exception.
Qed.

Lemma chunk_text_overlap_unchecked_witness :
  7 >= 5
  /\ (len (str "abc") <= 5 ->
      chunk_text 1 (str "abc") 5 7 = Some (Returned [str "abc"]))
  /\ (Z.abs 5 < 2 ^ 1023 ->
      forall e, chunk_text 1 (str "abc") 5 7 <> Some (Raised e)).
Proof.
  split; [lia | apply chunk_text_overlap_unchecked; lia].
Defined.

(** What happens on a longer text when the overlap is not smaller than the
    chunk size: [start] never becomes positive, so no list is returned. *)
Lemma chunk_text_overlap_ge_size_no_result (t : text) (chunk_size overlap : Z) :
  0 <= chunk_size <= overlap -> chunk_size < len t ->
  forall fuel result,
    chunk_text fuel t chunk_size overlap <> Some (Returned result).
Proof.
  intros Hov Hlen fuel result. unfold chunk_text.
  destruct (Z.leb_spec (len t) chunk_size); [lia|].
  apply chunk_loop_overlap_ge_size; lia.
Qed.

(** *** The cut point *)

(** C6, as stated, fails: in the first window of [two_terminators] (chunk
    size 20) the full stop is at index 15 and the question mark at index 18,
    both past 70% of the window; the source cuts after the full stop, the
    last terminator is the question mark. *)
Lemma cut_is_not_the_last_terminator :
  0 + 20 < len two_terminators
  /\ last_terminator (slice two_terminators 0 20) = 18
  /\ documented_break (slice two_terminators 0 20) 20 = Returned (Some 18)
  /\ sentence_break sentence_endings (slice two_terminators 0 20) 20
     = Returned (Some 15)
  /\ window two_terminators 20 0 = Returned (str "aaaaaaaaaaaaaaa.", 16).
Proof.
  repeat split; vm_compute; reflexivity.
Qed.

(** C6, amended. For a window that does not reach the end of the text (and a
    non-negative chunk size), the terminators are tried in the order
    ". ", ".\n", "! ", "!\n", "? ", "?\n"; the cut is made at the last
    occurrence [p] of the first of them whose last occurrence passes the
    test [p > chunk_size * 0.7], and the window is truncated to its first
    [p + 1] characters, so that it ends with the punctuation mark.  When no
    terminator passes the test the window is left whole. *)
Theorem window_cut_first_terminator (t : text) (chunk_size start : Z)
  (limit : float) :
  0 <= chunk_size ->
  int_mul_float chunk_size float_0_7 = Returned limit ->
  start + chunk_size < len t ->
  let chunk := slice t start (start + chunk_size) in
  (Forall (fun q => above_limit chunk limit q = false) sentence_endings
   /\ window t chunk_size start = Returned (chunk, start + chunk_size))
  \/ exists before punct after p,
       sentence_endings = before ++ punct :: after
       /\ Forall (fun q => above_limit chunk limit q = false) before
       /\ int_gt_float (Z.of_nat p) limit = true
       /\ occurs_at chunk punct p
       /\ (forall j, (p < j)%nat -> ~ occurs_at chunk punct j)
       /\ window t chunk_size start
          = Returned (firstn (S p) chunk, start + Z.of_nat (S p)).
Proof.
  intros Hcs Hlimit Hend chunk. unfold window. fold chunk.
  destruct (Z.ltb_spec (start + chunk_size) (len t)); [|lia].
  destruct (sentence_break_spec chunk _ _ Hlimit sentence_endings)
    as [[-> Hall] | (before & punct & after & Hsplit & Hall & Habove & ->)].
  - left. split; [exact Hall | reflexivity].
  - right. unfold above_limit in Habove.
    pose proof (above_limit_positive _ _ (limit_nonneg _ _ Hcs Hlimit) Habove)
      as Hpos.
    assert (punct <> []) as Hne.
    { apply sentence_endings_nonempty. rewrite Hsplit.
      apply in_or_app. right. now left. }
    destruct (rfind_spec chunk punct) as [[Hr _] | (p & Hr & Hocc & Hlast)];
      [lia|].
    pose proof (occurs_at_lt _ _ _ Hne Hocc) as Hlt.
    exists before, punct, after, p. rewrite Hr in *.
    repeat split; try assumption; try apply Hocc.
    unfold slice_to. rewrite slice_nonneg by lia.
    replace (Z.to_nat (Z.of_nat p + 1) - Z.to_nat 0)%nat with (S p) by lia.
    cbn [Z.to_nat skipn]. do 3 f_equal.
    unfold len. rewrite length_firstn. lia.
Qed.

Lemma window_cut_first_terminator_witness :
  0 <= 20
  /\ int_mul_float 20 float_0_7 = Returned (mkfloat 7881299347898368 (-49))
  /\ 0 + 20 < len two_terminators
  /\ (let chunk := slice two_terminators 0 (0 + 20) in
      let limit := mkfloat 7881299347898368 (-49) in
      (Forall (fun q => above_limit chunk limit q = false) sentence_endings
       /\ window two_terminators 20 0 = Returned (chunk, 0 + 20))
      \/ exists before punct after p,
           sentence_endings = before ++ punct :: after
           /\ Forall (fun q => above_limit chunk limit q = false) before
           /\ int_gt_float (Z.of_nat p) limit = true
           /\ occurs_at chunk punct p
           /\ (forall j, (p < j)%nat -> ~ occurs_at chunk punct j)
           /\ window two_terminators 20 0
              = Returned (firstn (S p) chunk, 0 + Z.of_nat (S p))).
Proof.
  split; [lia|]. split; [reflexivity|]. split; [vm_compute; reflexivity|].
  apply window_cut_first_terminator;
    [lia | reflexivity | vm_compute; reflexivity].
Defined.

(** *** Coverage *)

(** C7, as stated, fails: on [spaced_text] with chunk size 4 and overlap 1
    the chunks are "ab", "cd" and "d"; the three blanks of the text are in
    no chunk, so no concatenation of parts of the chunks gives the text
    back. *)
Lemma chunks_do_not_rebuild_the_text :
  4 < len spaced_text
  /\ chunk_text 10 spaced_text 4 1
     = Some (Returned [str "ab"; str "cd"; str "d"])
  /\ join_non_overlapping 1 [str "ab"; str "cd"; str "d"] = str "abd"
  /\ join_non_overlapping 1 [str "ab"; str "cd"; str "d"] <> spaced_text
  /\ In space spaced_text
  /\ Forall (fun c => ~ In space c) [str "ab"; str "cd"; str "d"].
Proof.
  split; [vm_compute; reflexivity|].
  split; [vm_compute; reflexivity|].
  split; [vm_compute; reflexivity|].
  split; [vm_compute; discriminate|].
  split; [vm_compute; tauto|].
  repeat constructor; vm_compute; intuition discriminate.
Qed.

(** C7, amended. For a text longer than the chunk size, a chunk size between
    1 and [2^52] and an overlap between 0 and 70% of the chunk size,
    [chunk_text] returns (with any fuel above the length of the text).  Every
    returned chunk is the whitespace-stripped window [t[s:e]] of a list of
    windows that starts at 0, in which each window starts [overlap]
    characters before the end of the previous one; every chunk has at most
    [chunk_size] characters; and the windows, each without the part the next
    one repeats, concatenate to the original text. *)
Theorem chunk_text_windows_cover (t : text) (chunk_size overlap : Z) :
  0 < chunk_size <= 2 ^ 52 ->
  0 <= overlap -> 10 * overlap <= 7 * chunk_size ->
  chunk_size < len t ->
  exists spans : list (Z * Z),
    (forall fuel, (length t < fuel)%nat ->
       chunk_text fuel t chunk_size overlap
       = Some (Returned (map (chunk_of t) spans)))
    /\ chained overlap 0 spans
    /\ concat (map (fresh_part t overlap) spans) = t
    /\ Forall (fun chunk => len chunk <= chunk_size) (map (chunk_of t) spans).
Proof.
  intros Hcs Hov0 Hov Hlen.
  destruct (chunk_loop_covers t chunk_size overlap Hcs Hov (length t) 0 []
              ltac:(lia) ltac:(unfold len; lia))
    as (spans & Hrun & Hchain & Hcat & Hall).
  exists spans. split; [|split; [|split]].
  - intros fuel Hfuel. unfold chunk_text.
    destruct (Z.leb_spec (len t) chunk_size); [lia|].
    apply chunk_loop_more_fuel with (fuel := S (length t)); [lia | exact Hrun].
  - exact Hchain.
  - rewrite Hcat. apply slice_all. lia.
  - apply Forall_map. revert Hall. apply Forall_impl.
    intros [s e]; simpl. intros [Hs He]. unfold chunk_of; simpl.
    pose proof (len_strip (slice t s e)).
    pose proof (len_slice_le t s e Hs ltac:(lia)). lia.
Qed.

Lemma chunk_text_windows_cover_witness :
  0 < 4 <= 2 ^ 52 /\ 0 <= 1 /\ 10 * 1 <= 7 * 4 /\ 4 < len spaced_text
  /\ exists spans : list (Z * Z),
       (forall fuel, (length spaced_text < fuel)%nat ->
          chunk_text fuel spaced_text 4 1
          = Some (Returned (map (chunk_of spaced_text) spans)))
       /\ chained 1 0 spans
       /\ concat (map (fresh_part spaced_text 1) spans) = spaced_text
       /\ Forall (fun chunk => len chunk <= 4) (map (chunk_of spaced_text) spans).
Proof.
  assert (0 < 4 <= 2 ^ 52) as H1 by (split; [lia | vm_compute; discriminate]).
  assert (4 < len spaced_text) as H2 by (vm_compute; reflexivity).
  split; [exact H1|]. split; [lia|]. split; [lia|]. split; [exact H2|].
  apply (chunk_text_windows_cover spaced_text 4 1 H1); [lia | lia | exact H2].
Defined.

End Chunker.

(** ** Statements about the store *)

Module StoreFacts.
Import Py PyFacts VectorStore StoreSpec.

Section Facts.
Context {vector dist : Type}.
Context {embedder : Embedder vector} {lib : IndexLibrary vector dist}.

#[local] Abbreviation Store := (@Store vector).
#[local] Abbreviation world := (@world vector).
#[local] Abbreviation Index := (@Index vector).

Lemma len_rows_of (texts : list text) : len (rows_of texts) = len texts.
Proof.
  unfold rows_of, len. now rewrite !length_map, encode_rows.
Qed.

(** A call with non-empty texts, in the three ways it can go. *)
Lemma add_documents_cases (texts : list text) (given : option (list dict))
  (w : world) :
  texts <> [] ->
  let log := encoded w ++ [texts] in
  match target_index (self w) with
  | Raised e =>
      add_documents texts given w = (Raised e, mkWorld (self w) log)
  | Returned i =>
      if width =? d i then
        add_documents texts given w
        = (Returned tt,
           mkWorld
             (set_metadata
                (set_index (self w)
                   (Some (mkIndex (d i) (xb i ++ rows_of texts))))
                (metadata (self w) ++ records_of texts given))
             log)
      else
        add_documents texts given w
        = (Raised AssertionError, mkWorld (set_index (self w) (Some i)) log)
  end.
Proof.
  intros Hne. destruct texts as [|t texts]; [congruence|].
  destruct w as [s log0]. unfold target_index. cbn [self encoded].
  unfold add_documents, bind, embed, get, put, lift, ret, records_of, rows_of.
  cbn [self encoded].
  destruct (index s) as [i|] eqn:Hidx.
  - unfold Index_add. destruct (width =? d i).
    + cbn [self encoded]. destruct (supplied given); reflexivity.
    + destruct s; cbn in Hidx; subst; reflexivity.
  - destruct (_create_index s) as [i|e]; [|reflexivity].
    cbn [self encoded]. unfold Index_add. destruct (width =? d i).
    + cbn [self encoded]. destruct (supplied given); reflexivity.
    + reflexivity.
Qed.

Lemma _create_index_empty (s : Store) (i : Index) :
  _create_index s = Returned i -> xb i = [].
Proof.
  unfold _create_index.
  repeat match goal with |- context [String.eqb ?a ?b] =>
    destruct (String.eqb a b) end;
    intros [= <-]; reflexivity.
Qed.

Lemma target_index_count (s : Store) (i : Index) :
  target_index s = Returned i -> ntotal i = index_count s.
Proof.
  unfold target_index, index_count.
  destruct (index s) as [j|].
  - now intros [= ->].
  - intros H. apply _create_index_empty in H. unfold ntotal. now rewrite H.
Qed.

Lemma len_records_of (texts : list text) (given : option (list dict)) :
  fits texts given -> len (records_of texts given) = len texts.
Proof.
  unfold fits, records_of, len. destruct (supplied given).
  - now intros ->.
  - intros _. now rewrite length_map.
Qed.

(** One call keeps the store aligned, also when it raises. *)
Lemma add_documents_keeps_aligned (texts : list text)
  (given : option (list dict)) (w : world) :
  aligned (self w) -> fits texts given ->
  aligned (self (snd (add_documents texts given w))).
Proof.
  intros Hal Hfit. destruct texts as [|t rest]; [exact Hal|].
  pose proof (add_documents_cases (t :: rest) given w ltac:(discriminate))
    as Hcases.
  cbv zeta in Hcases. set (ts := t :: rest) in *.
  destruct (target_index (self w)) as [i|e] eqn:Htarget.
  - pose proof (target_index_count _ _ Htarget) as Hcount.
    destruct (width =? d i); rewrite Hcases; cbn [snd self].
    + unfold aligned, index_count in *. destruct (self w); cbn in *.
      unfold ntotal in *. cbn [xb].
      rewrite !len_app, len_rows_of, len_records_of by assumption. lia.
    + unfold aligned, index_count in *. destruct (self w); cbn in *. lia.
  - rewrite Hcases. exact Hal.
Qed.

(** *** The loop of [search] *)

Lemma getitem_valid {A} (l : list A) (i : Z) :
  0 <= i < len l ->
  exists x, getitem l i = Returned x /\ nth_error l (Z.to_nat i) = Some x.
Proof.
  intros Hi. unfold getitem.
  destruct (Z.ltb_spec i 0); [lia|].
  destruct (Z.leb_spec 0 i); [|lia].
  destruct (Z.ltb_spec i (len l)); [|lia]. cbn [andb].
  destruct (nth_error l (Z.to_nat i)) as [x|] eqn:Hnth.
  - now exists x.
  - apply nth_error_None in Hnth. unfold len in *. lia.
Qed.

Lemma collect_valid (records : list dict) (hits : list (dist * Z)) :
  Forall (fun hit => 0 <= snd hit < len records) hits ->
  forall acc, exists results,
    collect records hits acc = Returned (acc ++ results)
    /\ Forall2 (result_of records) hits results.
Proof.
  induction 1 as [|[distance idx] rest Hhit Hrest IH]; intros acc.
  - exists []. split; [simpl; now rewrite app_nil_r | constructor].
  - cbn [collect]. cbn [snd] in Hhit.
    destruct (Z.ltb_spec idx (len records)); [|lia].
    destruct (getitem_valid records idx Hhit) as (record & -> & Hnth).
    destruct (IH (acc ++ [(similarity_of distance, record)]))
      as (results & -> & Hall).
    exists ((similarity_of distance, record) :: results). split.
    + now rewrite <- app_assoc.
    + constructor; [split; [reflexivity | exact Hnth] | exact Hall].
Qed.

Lemma Forall2_len {A B} (R : A -> B -> Prop) (l : list A) (l' : list B) :
  Forall2 R l l' -> len l' = len l.
Proof. intros H. unfold len. now rewrite (Forall2_length H). Qed.

Lemma rows_of_one (query : text) : exists q, rows_of [query] = [q].
Proof.
  unfold rows_of. pose proof (encode_rows [query]) as Hlen.
  destruct (encode [query]) as [|v [|v' rest]]; try discriminate.
  eexists; reflexivity.
Qed.

(** [search] on an index that holds vectors: the query is embedded, the
    index is asked for [min k ntotal] neighbours, and the loop runs over the
    hits when the index answers. *)
Lemma search_cases (w : world) (query : text) (k : Z) (i : Index) :
  index (self w) = Some i ->
  ntotal i <> 0 ->
  exists q,
    rows_of [query] = [q]
    /\ search query k w
       = (match Index_search i width q (Z.min k (ntotal i)) with
          | Raised e => Raised e
          | Returned hits => collect (metadata (self w)) hits []
          end,
          mkWorld (self w) (encoded w ++ [[query]])).
Proof.
  intros Hidx Hn. destruct (rows_of_one query) as [q Hq]. exists q.
  split; [exact Hq|]. unfold rows_of in Hq.
  unfold search, bind, get, embed, lift. cbn [self]. rewrite Hidx.
  destruct (Z.eqb_spec (ntotal i) 0); [contradiction|].
  cbn [self]. rewrite Hq.
  destruct (Index_search i width q (Z.min k (ntotal i))); reflexivity.
Qed.

Lemma Index_search_returns (i : Index) (q : vector) (k : Z) :
  width = d i -> 0 < k ->
  Index_search i width q k = Returned (knn (xb i) q k).
Proof.
  intros Hw Hk. unfold Index_search. rewrite Hw, Z.eqb_refl.
  destruct (Z.ltb_spec 0 k); [reflexivity | lia].
Qed.

End Facts.
End StoreFacts.

Module StoreProps.
Import Py PyFacts VectorStore StoreSpec StoreFacts.

Section Props.
Context {vector dist : Type}.
Context {embedder : Embedder vector} {lib : IndexLibrary vector dist}.
Context {host : Host}.

#[local] Abbreviation Store := (@Store vector).
#[local] Abbreviation world := (@world vector).
#[local] Abbreviation Index := (@Index vector).

(** C1, amended. Starting from an aligned store, after every call of a
    sequence of [add_documents] calls in which each call has either no
    metadata ([None] or an empty list) or one metadata record per text, the
    metadata list is as long as the index holds vectors. *)
Theorem add_documents_alignment (calls : list call) (w : world) :
  aligned (self w) ->
  Forall (fun c => fits (call_texts c) (call_metadata c)) calls ->
  Forall aligned (states_after calls w).
Proof.
  revert w. induction calls as [|c rest IH]; intros w Hal Hfits; simpl.
  - constructor.
  - inversion Hfits as [|? ? Hc Hrest]; subst.
    pose proof (add_documents_keeps_aligned _ _ w Hal Hc) as Hal'.
    constructor; [exact Hal' | now apply IH].
Qed.

(** C2, amended. [add_documents] does not compare the number of metadata
    records with the number of texts.  For non-empty texts and a supplied
    list of another length, provided the index exists or can be created and
    has the width of the embeddings, the call returns normally: the index
    holds the old vectors followed by one vector per text, and the metadata
    list holds the old records followed by the supplied records (by one
    default record per text when the supplied list is empty). *)
Theorem add_documents_accepts_mismatch (w : world) (texts : list text)
  (records : list dict) (i : Index) :
  texts <> [] ->
  length records <> length texts ->
  target_index (self w) = Returned i ->
  width = d i ->
  exists s',
    add_documents texts (Some records) w
    = (Returned tt, mkWorld s' (encoded w ++ [texts]))
    /\ index s' = Some (mkIndex (d i) (xb i ++ rows_of texts))
    /\ metadata s'
       = metadata (self w)
         ++ match records with
            | [] => map default_metadata texts
            | _ :: _ => records
            end
    /\ index_count s' = index_count (self w) + len texts.
Proof.
  intros Hne _ Htarget Hwidth.
  pose proof (add_documents_cases texts (Some records) w Hne) as Hcases.
  cbv zeta in Hcases. rewrite Htarget, Hwidth, Z.eqb_refl in Hcases.
  eexists. split; [exact Hcases|]. unfold set_metadata, set_index.
  split; [reflexivity|]. split.
  - unfold records_of. destruct records; reflexivity.
  - unfold index_count at 1. simpl index. unfold ntotal. simpl xb.
    rewrite len_app, len_rows_of.
    pose proof (target_index_count _ _ Htarget) as Hcount.
    unfold ntotal in Hcount. lia.
Qed.

(** C8. On a store whose index is absent or holds no vector, [search]
    returns the empty list for every query and every [k]; it raises nothing,
    leaves the store as it was and does not call the embedder. *)
Theorem search_empty_store (w : world) (query : text) (k : Z) :
  index (self w) = None
  \/ (exists i, index (self w) = Some i /\ ntotal i = 0) ->
  search query k w = (Returned [], w).
Proof.
  intros Hempty. unfold search, bind, get. cbn [self].
  destruct Hempty as [-> | (i & -> & Hzero)].
  - reflexivity.
  - rewrite Hzero. reflexivity.
Qed.

(** C9, amended. On a store that holds [n > 0] vectors and [n] metadata
    records, whose index has the dimension of the embeddings, [search query k]
    with [k >= 1] returns exactly [min k n] results: the index is asked for
    [min k n] neighbours, and every hit it gives becomes one result, in the
    same order, made of the similarity of the hit's distance and the record
    at the hit's position. *)
Theorem search_returns_min_k_n (w : world) (query : text) (k : Z) (i : Index) :
  index (self w) = Some i ->
  0 < ntotal i ->
  len (metadata (self w)) = ntotal i ->
  width = d i ->
  1 <= k ->
  exists q results,
    rows_of [query] = [q]
    /\ search query k w
       = (Returned results, mkWorld (self w) (encoded w ++ [[query]]))
    /\ len results = Z.min k (ntotal i)
    /\ Forall2 (result_of (metadata (self w)))
         (knn (xb i) q (Z.min k (ntotal i))) results.
Proof.
  intros Hidx Hn Hal Hwidth Hk.
  destruct (search_cases w query k i Hidx ltac:(lia)) as (q & Hq & Hrun).
  rewrite Index_search_returns in Hrun by lia.
  assert (Forall (fun hit => 0 <= snd hit < len (metadata (self w)))
            (knn (xb i) q (Z.min k (ntotal i)))) as Hvalid.
  { rewrite Hal. apply knn_valid. unfold ntotal in *. lia. }
  destruct (collect_valid _ _ Hvalid []) as (results & Hcollect & Hall).
  exists q, results. split; [exact Hq|]. split; [|split; [|exact Hall]].
  - rewrite Hrun, Hcollect. reflexivity.
  - rewrite (Forall2_len _ _ _ Hall). apply knn_count.
    unfold ntotal in *. lia.
Qed.


End Props.
End StoreProps.

(** *** The statements at concrete stores *)

Module StoreExamples.
Import Py PyFacts VectorStore StoreSpec StoreFacts ExactBackend Samples StoreProps.

#[local] Existing Instance exact_embedder.
#[local] Existing Instance exact_index.
#[local] Existing Instance exact_host.

(** C1, as stated, fails: one call with two texts and one metadata record
    leaves an index of two vectors beside a metadata list of one record. *)
Lemma mismatched_metadata_breaks_alignment :
  two_texts <> []
  /\ map (fun s => (len (metadata s), index_count s))
       (states_after [mkCall two_texts (Some [one_record])] empty_world)
     = [(1, 2)]
  /\ ~ Forall aligned
         (states_after [mkCall two_texts (Some [one_record])] empty_world).
Proof.
  split; [discriminate|]. split; [vm_compute; reflexivity|].
  intros H. inversion H as [|s rest Hal _]; subst.
  vm_compute in Hal. discriminate.
Qed.

Lemma add_documents_alignment_witness :
  aligned (self empty_world)
  /\ Forall (fun c => fits (call_texts c) (call_metadata c))
       [mkCall two_texts None; mkCall [str "gamma"] (Some [one_record])]
  /\ Forall aligned
       (states_after
          [mkCall two_texts None; mkCall [str "gamma"] (Some [one_record])]
          empty_world).
Proof.
  assert (aligned (self empty_world)) as H0 by reflexivity.
  assert (Forall (fun c => fits (call_texts c) (call_metadata c))
            [mkCall two_texts None; mkCall [str "gamma"] (Some [one_record])])
    as H1 by (repeat constructor).
  split; [exact H0|]. split; [exact H1|].
  exact (add_documents_alignment _ empty_world H0 H1).
Defined.

(** C2, as stated, fails: the call with two texts and one record returns
    normally and changes both the index and the metadata list. *)
Lemma mismatched_metadata_is_inserted :
  length [one_record] <> length two_texts
  /\ fst (run (add_documents two_texts (Some [one_record])) fresh)
     = Returned tt
  /\ index_count (self (snd (run (add_documents two_texts (Some [one_record]))
                               fresh))) = 2
  /\ metadata (self (snd (run (add_documents two_texts (Some [one_record]))
                            fresh))) = [one_record]
  /\ index_count fresh = 0 /\ metadata fresh = [].
Proof.
  split; [discriminate|]. repeat split; vm_compute; reflexivity.
Qed.

Lemma add_documents_accepts_mismatch_witness :
  two_texts <> []
  /\ length [one_record] <> length two_texts
  /\ target_index (self empty_world) = Returned created
  /\ width = d created
  /\ exists s',
       add_documents two_texts (Some [one_record]) empty_world
       = (Returned tt, mkWorld s' (encoded empty_world ++ [two_texts]))
       /\ index s' = Some (mkIndex (d created) (xb created ++ rows_of two_texts))
       /\ metadata s' = metadata (self empty_world) ++ [one_record]
       /\ index_count s' = index_count (self empty_world) + len two_texts.
Proof.
  split; [discriminate|]. split; [discriminate|].
  split; [reflexivity|]. split; [reflexivity|].
  apply (add_documents_accepts_mismatch empty_world two_texts [one_record]
           created);
    [discriminate | discriminate | reflexivity | reflexivity].
Defined.

Lemma search_empty_store_witness :
  (index (self empty_world) = None
   \/ exists i, index (self empty_world) = Some i /\ ntotal i = 0)
  /\ search (str "python developer") 5 empty_world = (Returned [], empty_world).
Proof.
  assert (index (self empty_world) = None
          \/ exists i, index (self empty_world) = Some i /\ ntotal i = 0)
    as H by (left; reflexivity).
  split; [exact H | exact (search_empty_store empty_world _ 5 H)].
Defined.

Lemma search_returns_min_k_n_witness :
  index (self three_documents) = Some three_rows
  /\ 0 < ntotal three_rows
  /\ len (metadata (self three_documents)) = ntotal three_rows
  /\ width = d three_rows
  /\ 1 <= 100
  /\ exists q results,
       rows_of [str "a"] = [q]
       /\ search (str "a") 100 three_documents
          = (Returned results,
             mkWorld (self three_documents)
               (encoded three_documents ++ [[str "a"]]))
       /\ len results = Z.min 100 (ntotal three_rows)
       /\ Forall2 (result_of (metadata (self three_documents)))
            (knn (xb three_rows) q (Z.min 100 (ntotal three_rows))) results.
Proof.
  split; [reflexivity|]. split; [reflexivity|]. split; [reflexivity|].
  split; [reflexivity|]. split; [lia|].
  apply (search_returns_min_k_n three_documents (str "a") 100 three_rows);
    [reflexivity | reflexivity | reflexivity | reflexivity | lia].
Defined.

(** The example of the design document: [k = 100] on three documents gives
    three results, the closest first. *)
Example search_100_on_three_documents :
  fst (search (str "a") 100 three_documents)
  = Returned
      [ (0, [(VStr (str "text"), VStr (str "a"))]);
        (9802, [(VStr (str "text"), VStr (str "bb"))]);
        (40004, [(VStr (str "text"), VStr (str "ccc"))]) ].
Proof. vm_compute. reflexivity. Qed.

(** C9, as stated, fails.  On the aligned store of three documents [k = 0]
    does not give [min 0 3 = 0] results: the index refuses the query and
    [search] raises [AssertionError].  So does every [k] on an aligned store
    whose index has another dimension than the embeddings. *)
Lemma search_refused_by_index :
  index (self three_documents) = Some three_rows
  /\ 0 < ntotal three_rows
  /\ len (metadata (self three_documents)) = ntotal three_rows
  /\ search (str "a") 0 three_documents
     = (Raised AssertionError,
        mkWorld (self three_documents)
          (encoded three_documents ++ [[str "a"]]))
  /\ index (self reloaded) = Some wide_rows
  /\ 0 < ntotal wide_rows
  /\ len (metadata (self reloaded)) = ntotal wide_rows
  /\ width <> d wide_rows
  /\ search (str "a") 2 reloaded
     = (Raised AssertionError,
        mkWorld (self reloaded) (encoded reloaded ++ [[str "a"]])).
Proof.
  repeat split; try (vm_compute; reflexivity); discriminate.
Qed.



(** The sample store is the one the constructor makes when it is given no
    model directory. *)
Example fresh_is_constructed :
  __init__ "exact" 2 "flat" None no_files = Returned fresh.
Proof. reflexivity. Qed.

End StoreExamples.

(** * Further properties of the chunker *)

Module ChunkerMoreSpec.
Import Py DocumentParser.

(** A text without white space at either end. *)
Definition trimmed (c : text) : Prop :=
  match c with
  | [] => True
  | first :: _ => isspace first = false
  end
  /\ match rev c with
     | [] => True
     | last :: _ => isspace last = false
     end.

(** [c] ends with the character [mark]. *)
Definition ends_with (c : text) (mark : char) : Prop :=
  exists body, c = body ++ [mark].

(** The punctuation marks that open the six terminators. *)
Definition sentence_marks : list char := [dot; bang; qmark].

End ChunkerMoreSpec.

Module ChunkerMore.
Import Py PyFacts DocumentParser ChunkerSpec ChunkerFacts ChunkerMoreSpec.

(** *** [strip] *)

Lemma lstrip_head (s : text) :
  match lstrip s with
  | [] => True
  | first :: _ => isspace first = false
  end.
Proof.
  induction s as [|c s IH]; simpl; [exact I|].
  destruct (isspace c) eqn:E; [exact IH | exact E].
Qed.

Lemma lstrip_keeps_last (l : text) (x : char) :
  isspace x = false -> exists w, lstrip (l ++ [x]) = w ++ [x].
Proof.
  intros Hx. induction l as [|c l IH]; simpl.
  - rewrite Hx. now exists [].
  - destruct (isspace c); [exact IH|]. now exists (c :: l).
Qed.

Lemma strip_trimmed (s : text) : trimmed (strip s).
Proof.
  unfold strip, rstrip, trimmed. rewrite rev_involutive. split.
  - pose proof (lstrip_head s) as Hhead.
    destruct (lstrip s) as [|x u]; [exact I|].
    simpl rev. destruct (lstrip_keeps_last (rev u) x Hhead) as [w ->].
    rewrite rev_app_distr. exact Hhead.
  - apply lstrip_head.
Qed.

Lemma strip_keeps_mark (s : text) (mark : char) :
  isspace mark = false -> ends_with s mark -> ends_with (strip s) mark.
Proof.
  intros Hm [body ->]. unfold strip, rstrip, ends_with.
  destruct (lstrip_keeps_last body mark Hm) as [w ->].
  rewrite rev_app_distr. simpl.
  rewrite Hm. exists w. simpl. now rewrite rev_involutive.
Qed.


(** *** Trimmed chunks *)

Lemma chunk_loop_trimmed (t : text) (chunk_size overlap : Z) :
  forall fuel start acc chunks,
    Forall trimmed acc ->
    chunk_loop fuel t chunk_size overlap start acc = Some (Returned chunks) ->
    Forall trimmed chunks.
Proof.
  induction fuel as [|fuel IH]; intros start acc chunks Hacc Hrun.
  - discriminate.
  - rewrite chunk_loop_unfold in Hrun.
    destruct (start <? len t); [|now injection Hrun as <-].
    unfold chunk_step in Hrun.
    destruct (window t chunk_size start) as [[chunk e]|err]; [|discriminate].
    apply IH in Hrun; [exact Hrun|].
    apply Forall_app. split; [exact Hacc|].
    constructor; [apply strip_trimmed | constructor].
Qed.

(** X2. Every chunk that [chunk_text] returns for a text longer than the
    chunk size has no white space at its start or at its end (a text that
    fits in one chunk is returned untrimmed instead). *)
Theorem chunk_text_long_chunks_trimmed (fuel : nat) (t : text)
  (chunk_size overlap : Z) (chunks : list text) :
  chunk_size < len t ->
  chunk_text fuel t chunk_size overlap = Some (Returned chunks) ->
  Forall trimmed chunks.
Proof.
  intros Hlen. unfold chunk_text.
  destruct (Z.leb_spec (len t) chunk_size); [lia|].
  apply chunk_loop_trimmed. constructor.
Qed.

Lemma chunk_text_long_chunks_trimmed_witness :
  4 < len spaced_text
  /\ chunk_text 10 spaced_text 4 1
     = Some (Returned [str "ab"; str "cd"; str "d"])
  /\ Forall trimmed [str "ab"; str "cd"; str "d"].
Proof.
  assert (4 < len spaced_text) as H1 by (vm_compute; reflexivity).
  assert (chunk_text 10 spaced_text 4 1
          = Some (Returned [str "ab"; str "cd"; str "d"])) as H2
    by (vm_compute; reflexivity).
  split; [exact H1|]. split; [exact H2|].
  exact (chunk_text_long_chunks_trimmed 10 spaced_text 4 1 _ H1 H2).
Defined.

(** *** The number of chunks *)

(** The windows of a run, with what each iteration guarantees. *)
Lemma chunk_loop_windows (t : text) (chunk_size overlap : Z) :
  0 < chunk_size <= 2 ^ 52 -> 10 * overlap <= 7 * chunk_size ->
  forall n start acc,
    0 <= start -> len t - start <= Z.of_nat n ->
    exists spans,
      chunk_loop (S n) t chunk_size overlap start acc
        = Some (Returned (acc ++ map (chunk_of t) spans))
      /\ chained overlap start spans
      /\ Forall (fun span => fst span < len t
                             /\ 7 * chunk_size < 10 * (snd span - fst span))
           spans
      /\ (start < len t -> spans <> []).
Proof.
  intros Hcs Hov. induction n as [|n IH]; intros start acc Hstart Hmeasure;
    rewrite chunk_loop_unfold;
    destruct (Z.ltb_spec start (len t)) as [Hlt|Hge]; try lia.
  - exists []. simpl. rewrite app_nil_r.
    repeat split; [constructor | lia].
  - unfold chunk_step.
    destruct (window_advances t chunk_size start Hcs Hstart)
      as (e & -> & Hle & Hadv).
    destruct (IH (e - overlap) (acc ++ [strip (slice t start e)])
                ltac:(lia) ltac:(lia))
      as (spans & Hrun & Hchain & Hall & _).
    exists ((start, e) :: spans). split; [|split; [|split]].
    + rewrite Hrun, <- app_assoc. reflexivity.
    + simpl. repeat split; [lia | exact Hchain].
    + constructor; [cbn [fst snd]; lia | exact Hall].
    + discriminate.
  - exists []. simpl. rewrite app_nil_r.
    repeat split; [constructor | lia].
Qed.

Lemma chained_count (t : text) (chunk_size overlap : Z) :
  forall spans start,
    chained overlap start spans ->
    Forall (fun span => fst span < len t
                        /\ 7 * chunk_size < 10 * (snd span - fst span))
      spans ->
    spans = []
    \/ (len spans - 1) * (7 * chunk_size - 10 * overlap)
       <= 10 * (len t - 1 - start).
Proof.
  induction spans as [|[s e] rest IH]; intros start Hchain Hall.
  - now left.
  - right. cbn [chained fst snd] in Hchain.
    destruct Hchain as (-> & Hprog & Hchain).
    inversion Hall as [|? ? [Hs Hadv] Hrest]; subst. cbn [fst snd] in *.
    destruct (IH _ Hchain Hrest) as [-> | Hbound].
    + change (len [(start, e)]) with 1. lia.
    + replace (len ((start, e) :: rest) - 1) with ((len rest - 1) + 1)
        by (unfold len; simpl length; lia).
      rewrite Z.mul_add_distr_r, Z.mul_1_l.
      set (spent := (len rest - 1) * (7 * chunk_size - 10 * overlap)) in *.
      lia.
Qed.

(** A run of [chunk_text] under the conditions that make every iteration
    advance. *)
Lemma chunk_text_run (t : text) (chunk_size overlap : Z) :
  0 < chunk_size <= 2 ^ 52 ->
  10 * overlap <= 7 * chunk_size ->
  exists chunks,
    (forall fuel, (length t < fuel)%nat ->
       chunk_text fuel t chunk_size overlap = Some (Returned chunks))
    /\ chunks <> []
    /\ (len chunks - 1) * (7 * chunk_size - 10 * overlap) <= 10 * len t.
Proof.
  intros Hcs Hov. pose proof (len_nonneg t) as Hlen.
  destruct (Z.le_gt_cases (len t) chunk_size) as [Hfit|Hlong].
  - exists [t]. split; [|split].
    + intros fuel _. now apply chunk_text_fits.
    + discriminate.
    + change (len [t]) with 1. lia.
  - destruct (chunk_loop_windows t chunk_size overlap Hcs Hov (length t) 0 []
                ltac:(lia) ltac:(unfold len; lia))
      as (spans & Hrun & Hchain & Hall & Hne).
    exists (map (chunk_of t) spans). split; [|split].
    + intros fuel Hfuel. unfold chunk_text.
      destruct (Z.leb_spec (len t) chunk_size); [lia|].
      apply chunk_loop_more_fuel with (fuel := S (length t));
        [lia | exact Hrun].
    + destruct spans as [|span rest]; [|discriminate].
      exfalso. apply Hne; [lia | reflexivity].
    + destruct (chained_count t chunk_size overlap spans 0 Hchain Hall)
        as [-> | Hbound].
      * change (len (map (chunk_of t) [])) with 0. lia.
      * unfold len in *. rewrite length_map. lia.
Qed.

(** X1. With a chunk size between 1 and [2^52] and an overlap of at most 70%
    of it, [chunk_text] returns for every text (with any fuel above the
    length of the text): the list has at least one chunk, and its length [m]
    satisfies [(m - 1) * (7 * chunk_size - 10 * overlap) <= 10 * len(text)],
    because every iteration moves [start] forward by more than
    [0.7 * chunk_size - overlap]. *)
Theorem chunk_text_returns_bounded (t : text) (chunk_size overlap : Z) :
  0 < chunk_size <= 2 ^ 52 ->
  10 * overlap <= 7 * chunk_size ->
  exists chunks,
    (forall fuel, (length t < fuel)%nat ->
       chunk_text fuel t chunk_size overlap = Some (Returned chunks))
    /\ chunks <> []
    /\ (len chunks - 1) * (7 * chunk_size - 10 * overlap) <= 10 * len t.
Proof. apply chunk_text_run. Qed.


Lemma chunk_text_returns_bounded_witness :
  0 < 20 <= 2 ^ 52
  /\ 10 * 4 <= 7 * 20
  /\ exists chunks,
       (forall fuel, (length two_terminators < fuel)%nat ->
          chunk_text fuel two_terminators 20 4 = Some (Returned chunks))
       /\ chunks <> []
       /\ (len chunks - 1) * (7 * 20 - 10 * 4) <= 10 * len two_terminators.
Proof.
  assert (0 < 20 <= 2 ^ 52) as H1 by (split; [lia | vm_compute; discriminate]).
  split; [exact H1|]. split; [lia|].
  apply (chunk_text_returns_bounded two_terminators 20 4 H1). lia.
Defined.

(** The 32 characters of the sample text in windows of 20 with an overlap
    of 4: the loop runs three times; the first window is cut after its full
    stop and the last one repeats the end of the second. *)
Example chunk_text_three_windows :
  chunk_text 33 two_terminators 20 4
  = Some (Returned [str "aaaaaaaaaaaaaaa."; str "aaa. b? cccccccccccc";
                    str "cccc"]).
Proof. vm_compute. reflexivity. Qed.

(** *** Windows cut at a sentence end *)

Lemma firstn_succ_skipn {A} (p : nat) (l : list A) (x : A) (rest : list A) :
  skipn p l = x :: rest -> firstn (S p) l = firstn p l ++ [x].
Proof.
  revert l. induction p as [|p IH]; intros l Hskip.
  - simpl in Hskip. now subst l.
  - destruct l as [|y l]; [discriminate|]. simpl in Hskip.
    change (y :: firstn (S p) l = y :: (firstn p l ++ [x])).
    f_equal. now apply IH.
Qed.

Lemma sentence_endings_mark (punct : text) :
  In punct sentence_endings ->
  exists mark blank, punct = [mark; blank] /\ In mark sentence_marks.
Proof.
  unfold sentence_endings, sentence_marks. simpl.
  intros [<-|[<-|[<-|[<-|[<-|[<-|[]]]]]]]; eexists _, _;
    (split; [reflexivity | tauto]).
Qed.

Lemma sentence_marks_not_space (mark : char) :
  In mark sentence_marks -> isspace mark = false.
Proof.
  unfold sentence_marks. simpl. intros [<-|[<-|[<-|[]]]]; reflexivity.
Qed.

(** The two ways a window that does not reach the end of the text can come
    out. *)
Lemma window_cut_cases (t : text) (chunk_size start : Z) :
  0 < chunk_size <= 2 ^ 52 -> 0 <= start -> start + chunk_size < len t ->
  let chunk := slice t start (start + chunk_size) in
  window t chunk_size start = Returned (chunk, start + chunk_size)
  \/ exists punct p,
       In punct sentence_endings
       /\ occurs_at chunk punct p
       /\ 7 * chunk_size < 10 * (Z.of_nat p + 1)
       /\ window t chunk_size start
          = Returned (firstn (S p) chunk, start + Z.of_nat (S p)).
Proof.
  intros Hcs Hstart Hend chunk. unfold window. fold chunk.
  assert (2 ^ 52 < 2 ^ 53) as H5253 by (apply Z.pow_lt_mono_r; lia).
  assert (int_mul_float chunk_size float_0_7
          = Returned (float_mul (mkfloat chunk_size 0) float_0_7)) as Hlimit.
  { unfold int_mul_float. now rewrite float_of_int_exact by lia. }
  destruct (Z.ltb_spec (start + chunk_size) (len t)); [|lia].
  destruct (sentence_break_spec chunk _ _ Hlimit sentence_endings)
    as [[-> _] | (before & punct & after & Hsplit & _ & Habove & ->)].
  - now left.
  - right. unfold above_limit in Habove.
    pose proof (above_limit_lower_bound _ _ _ Hcs Hlimit Habove) as Hlow.
    assert (In punct sentence_endings) as Hin.
    { rewrite Hsplit. apply in_or_app. right. now left. }
    pose proof (sentence_endings_nonempty _ Hin) as Hne.
    destruct (rfind_spec chunk punct) as [[Hr _] | (p & Hr & Hocc & _)];
      [lia|].
    pose proof (occurs_at_lt _ _ _ Hne Hocc) as Hlt.
    exists punct, p. rewrite Hr in *.
    split; [exact Hin|]. split; [exact Hocc|]. split; [lia|].
    unfold slice_to. rewrite slice_nonneg by lia.
    replace (Z.to_nat (Z.of_nat p + 1) - Z.to_nat 0)%nat with (S p) by lia.
    cbn [Z.to_nat skipn]. do 3 f_equal.
    unfold len. rewrite length_firstn. lia.
Qed.

(** X3. In an iteration whose window does not reach the end of the text
    (chunk size between 1 and [2^52], [start >= 0]), the chunk appended is
    the stripped window [text[start:end]] and the next [start] is
    [end - overlap], where either [end = start + chunk_size], or the window
    was cut: then it is shorter than the chunk size but longer than 70% of
    it, and the chunk ends with the punctuation mark ".", "!" or "?". *)
Theorem chunk_step_cut_ends_with_mark (t : text)
  (chunk_size overlap start : Z) :
  0 < chunk_size <= 2 ^ 52 -> 0 <= start -> start + chunk_size < len t ->
  exists e,
    chunk_step t chunk_size overlap start
    = Returned (strip (slice t start e), e - overlap)
    /\ (e = start + chunk_size
        \/ (e < start + chunk_size
            /\ 7 * chunk_size < 10 * (e - start)
            /\ exists mark, In mark sentence_marks
                            /\ ends_with (strip (slice t start e)) mark)).
Proof.
  intros Hcs Hstart Hend. unfold chunk_step.
  destruct (window_cut_cases t chunk_size start Hcs Hstart Hend)
    as [-> | (punct & p & Hin & Hocc & Hlow & ->)].
  - exists (start + chunk_size). split; [reflexivity | now left].
  - set (chunk := slice t start (start + chunk_size)) in *.
    destruct (sentence_endings_mark _ Hin) as (mark & blank & -> & Hmark).
    assert (len chunk = chunk_size) as Hlen
      by (unfold chunk; rewrite len_slice; lia).
    destruct Hocc as [Hle Hocc].
    destruct (skipn p chunk) as [|c0 rest0] eqn:Hskip; [discriminate|].
    cbn [startswith] in Hocc.
    apply andb_prop in Hocc as [Hc0 Hrest].
    destruct rest0 as [|c1 rest]; [discriminate|].
    apply N.eqb_eq in Hc0. subst c0.
    assert (Z.of_nat p + 2 <= chunk_size) as Hp.
    { pose proof (f_equal (@length _) Hskip) as Hl.
      rewrite length_skipn in Hl. simpl in Hl. unfold len in Hlen. lia. }
    assert (firstn (S p) chunk = slice t start (start + Z.of_nat (S p)))
      as Hwin.
    { unfold chunk. rewrite !slice_nonneg by lia. rewrite firstn_firstn.
      f_equal. lia. }
    exists (start + Z.of_nat (S p)). rewrite <- Hwin.
    split; [reflexivity|]. right.
    split; [lia|]. split; [lia|].
    exists mark. split; [exact Hmark|].
    apply strip_keeps_mark; [now apply sentence_marks_not_space|].
    exists (firstn p chunk). now apply firstn_succ_skipn with (rest := c1 :: rest).
Qed.

Lemma chunk_step_cut_ends_with_mark_witness :
  0 < 20 <= 2 ^ 52 /\ 0 <= 0 /\ 0 + 20 < len two_terminators
  /\ exists e,
       chunk_step two_terminators 20 4 0
       = Returned (strip (slice two_terminators 0 e), e - 4)
       /\ (e = 0 + 20
           \/ (e < 0 + 20
               /\ 7 * 20 < 10 * (e - 0)
               /\ exists mark, In mark sentence_marks
                               /\ ends_with (strip (slice two_terminators 0 e))
                                    mark)).
Proof.
  assert (0 < 20 <= 2 ^ 52) as H1 by (split; [lia | vm_compute; discriminate]).
  assert (0 + 20 < len two_terminators) as H2 by (vm_compute; reflexivity).
  split; [exact H1|]. split; [lia|]. split; [exact H2|].
  apply (chunk_step_cut_ends_with_mark two_terminators 20 4 0 H1); [lia|exact H2].
Defined.

End ChunkerMore.

(** * Further properties of the store *)

Module StoreMoreSpec.
Import Py VectorStore StoreSpec.

Section Spec.
Context {vector dist : Type}.
Context {embedder : Embedder vector} {lib : IndexLibrary vector dist}.

#[local] Abbreviation Store := (@Store vector).
#[local] Abbreviation world := (@world vector).

(** A call of one of the methods that work on the store in memory. *)
Inductive operation : Type :=
| Add (texts : list text) (given : option (list dict))
| Search (query : text) (k : Z)
| Clear.

Definition perform (o : operation) (w : world) : world :=
  match o with
  | Add texts given => snd (add_documents texts given w)
  | Search query k => snd (search query k w)
  | Clear => snd (clear w)
  end.

(** The stores after each of a sequence of calls. *)
Fixpoint stores_after (ops : list operation) (w : world) : list Store :=
  match ops with
  | [] => []
  | o :: rest => self (perform o w) :: stores_after rest (perform o w)
  end.

(** An [Add] whose metadata fits its texts; the other calls take no
    metadata. *)
Definition well_formed (o : operation) : Prop :=
  match o with
  | Add texts given => fits texts given
  | _ => True
  end.

(** The index types [_create_index] accepts. *)
Definition supported_kind (kind : string) : Prop :=
  kind = "flat"%string \/ kind = "ivf"%string \/ kind = "hnsw"%string.

(** The same store, constructed with another [index_type]. *)
Definition with_kind (kind : string) (s : Store) : Store :=
  mkStore (embedding_model_name s) (dimension s) kind (model_dir s)
          (index s) (metadata s).

Definition world_with_kind (kind : string) (w : world) : world :=
  mkWorld (with_kind kind (self w)) (encoded w).

(** The hits whose position passes the test [idx < len(self.metadata)]. *)
Definition kept (records : list dict) (hits : list (dist * Z))
  : list (dist * Z) :=
  filter (fun hit => snd hit <? len records) hits.

End Spec.
End StoreMoreSpec.

Module StoreMore.
Import Py PyFacts VectorStore StoreSpec StoreFacts StoreMoreSpec.

Section More.
Context {vector dist : Type}.
Context {embedder : Embedder vector} {lib : IndexLibrary vector dist}.

#[local] Abbreviation Store := (@Store vector).
#[local] Abbreviation world := (@world vector).
#[local] Abbreviation Index := (@Index vector).

(** X4. [add_documents] only appends.  Whatever the arguments and whether
    the call returns or raises, the metadata list afterwards is the old list
    followed by new records, an index that existed keeps its dimension and
    its rows in their positions, followed by new rows, and the other
    attributes of the store are unchanged. *)
Theorem add_documents_appends (texts : list text) (given : option (list dict))
  (w : world) :
  let s' := self (snd (add_documents texts given w)) in
  (exists records, metadata s' = metadata (self w) ++ records)
  /\ (forall i, index (self w) = Some i ->
        exists rows, index s' = Some (mkIndex (d i) (xb i ++ rows)))
  /\ embedding_model_name s' = embedding_model_name (self w)
  /\ dimension s' = dimension (self w)
  /\ index_type s' = index_type (self w)
  /\ model_dir s' = model_dir (self w).
Proof.
  destruct texts as [|t rest].
  - cbn. split; [exists []; now rewrite app_nil_r|].
    split; [|repeat split].
    intros i Hi. exists []. rewrite app_nil_r, Hi. now destruct i.
  - pose proof (add_documents_cases (t :: rest) given w ltac:(discriminate))
      as Hcases.
    cbv zeta in Hcases. set (ts := t :: rest) in *.
    unfold target_index in Hcases.
    destruct (index (self w)) as [i|] eqn:Hidx.
    + destruct (width =? d i); rewrite Hcases; cbn.
      * split; [eexists; reflexivity|]. split; [|repeat split].
        intros j [= <-]. eexists; reflexivity.
      * split; [exists []; now rewrite app_nil_r|]. split; [|repeat split].
        intros j [= <-]. exists []. rewrite app_nil_r. now destruct i.
    + destruct (_create_index (self w)) as [i|e].
      * destruct (width =? d i); rewrite Hcases; cbn.
        -- split; [eexists; reflexivity|]. split; [|repeat split].
           intros j Hj. discriminate.
        -- split; [exists []; now rewrite app_nil_r|].
           split; [|repeat split]. intros j Hj. discriminate.
      * rewrite Hcases; cbn.
        split; [exists []; now rewrite app_nil_r|]. split; [|repeat split].
        intros j Hj. congruence.
Qed.


(** X5. After a call of [add_documents] that returns, made on an aligned
    store with non-empty texts and fitting metadata, the vector and the
    metadata record of the [j]-th text sit at the same position, [j] places
    after the vectors the index held before. *)
Theorem add_documents_then_lookup (w : world) (texts : list text)
  (given : option (list dict)) (i : Index) (j : nat) :
  texts <> [] ->
  fits texts given ->
  aligned (self w) ->
  target_index (self w) = Returned i ->
  width = d i ->
  (j < length texts)%nat ->
  exists s' i' row record,
    add_documents texts given w
    = (Returned tt, mkWorld s' (encoded w ++ [texts]))
    /\ index s' = Some i'
    /\ nth_error (rows_of texts) j = Some row
    /\ nth_error (records_of texts given) j = Some record
    /\ nth_error (xb i') (length (xb i) + j) = Some row
    /\ nth_error (metadata s') (length (xb i) + j) = Some record.
Proof.
  intros Hne Hfit Hal Htarget Hwidth Hj.
  pose proof (add_documents_cases texts given w Hne) as Hcases.
  cbv zeta in Hcases. rewrite Htarget, Hwidth, Z.eqb_refl in Hcases.
  pose proof (target_index_count _ _ Htarget) as Hcount.
  pose proof (len_rows_of texts) as Hrows.
  pose proof (len_records_of texts given Hfit) as Hrecords.
  unfold aligned in Hal. unfold ntotal in *. unfold len in *.
  destruct (nth_error (rows_of texts) j) as [row|] eqn:Hrow;
    [|apply nth_error_None in Hrow; lia].
  destruct (nth_error (records_of texts given) j) as [record|] eqn:Hrecord;
    [|apply nth_error_None in Hrecord; lia].
  exists (set_metadata
            (set_index (self w) (Some (mkIndex (d i) (xb i ++ rows_of texts))))
            (metadata (self w) ++ records_of texts given)),
         (mkIndex (d i) (xb i ++ rows_of texts)), row, record.
  split; [exact Hcases|].
  unfold set_metadata, set_index. simpl index. simpl metadata. simpl xb.
  split; [reflexivity|]. split; [reflexivity|]. split; [reflexivity|].
  split.
  - rewrite nth_error_app2 by lia.
    replace (length (xb i) + j - length (xb i))%nat with j by lia.
    exact Hrow.
  - rewrite nth_error_app2 by lia.
    replace (length (xb i) + j - length (metadata (self w)))%nat with j by lia.
    exact Hrecord.
Qed.

(** *** [search] on any store *)

(** What the loop of [search] does with one hit, by the range of its
    position. *)
Lemma collect_step (records : list dict) (distance : dist) (idx : Z)
  (rest : list (dist * Z)) (acc : list (dist * dict)) :
  (len records <= idx ->
   collect records ((distance, idx) :: rest) acc = collect records rest acc)
  /\ (0 <= idx < len records ->
      exists record,
        nth_error records (Z.to_nat idx) = Some record
        /\ collect records ((distance, idx) :: rest) acc
           = collect records rest (acc ++ [(similarity_of distance, record)]))
  /\ (- len records <= idx < 0 ->
      exists record,
        nth_error records (Z.to_nat (idx + len records)) = Some record
        /\ collect records ((distance, idx) :: rest) acc
           = collect records rest (acc ++ [(similarity_of distance, record)]))
  /\ (idx < - len records ->
      collect records ((distance, idx) :: rest) acc = Raised IndexError).
Proof.
  pose proof (len_nonneg records) as Hlen.
  cbn [collect]. unfold getitem.
  split; [|split; [|split]]; intros Hidx.
  - destruct (Z.ltb_spec idx (len records)); [lia | reflexivity].
  - destruct (getitem_valid records idx Hidx) as (record & Hget & Hnth).
    exists record. split; [exact Hnth|].
    destruct (Z.ltb_spec idx (len records)); [|lia].
    unfold getitem in Hget. now rewrite Hget.
  - destruct (Z.ltb_spec idx (len records)); [|lia].
    destruct (Z.ltb_spec idx 0); [|lia].
    destruct (Z.leb_spec 0 (idx + len records)); [|lia].
    destruct (Z.ltb_spec (idx + len records) (len records)); [|lia].
    cbn [andb].
    destruct (nth_error records (Z.to_nat (idx + len records)))
      as [record|] eqn:Hnth.
    + now exists record.
    + apply nth_error_None in Hnth. unfold len in *. lia.
  - destruct (Z.ltb_spec idx (len records)); [|lia].
    destruct (Z.ltb_spec idx 0); [|lia].
    destruct (Z.leb_spec 0 (idx + len records)); [lia | reflexivity].
Qed.

(** X7. The test [idx < len(self.metadata)] in the loop of [search] bounds
    a position from above only.  A hit at a negative position [idx] not
    below [-len(metadata)] is paired with the record [idx] places from the
    end of the list (so [-1] gives the last record), and a position below
    [-len(metadata)] makes the loop raise [IndexError]. *)
Theorem collect_negative_position (records : list dict) (distance : dist)
  (idx : Z) (rest : list (dist * Z)) (acc : list (dist * dict)) :
  idx < 0 ->
  (- len records <= idx ->
   exists record,
     nth_error records (Z.to_nat (idx + len records)) = Some record
     /\ collect records ((distance, idx) :: rest) acc
        = collect records rest (acc ++ [(similarity_of distance, record)]))
  /\ (idx < - len records ->
      collect records ((distance, idx) :: rest) acc = Raised IndexError).
Proof.
  intros Hneg.
  destruct (collect_step records distance idx rest acc)
    as (_ & _ & Hwrap & Hraise).
  split; [intros Hlow; apply Hwrap; lia | exact Hraise].
Qed.

Lemma collect_nonneg (records : list dict) (hits : list (dist * Z)) :
  Forall (fun hit => 0 <= snd hit) hits ->
  forall acc, exists results,
    collect records hits acc = Returned (acc ++ results)
    /\ Forall2 (result_of records) (kept records hits) results.
Proof.
  induction 1 as [|[distance idx] rest Hhit Hrest IH]; intros acc.
  - exists []. split; [simpl; now rewrite app_nil_r | constructor].
  - cbn [snd] in Hhit.
    destruct (collect_step records distance idx rest acc)
      as (Hskip & Hin & _ & _).
    unfold kept. cbn [filter snd]. fold (kept records rest).
    destruct (Z.ltb_spec idx (len records)) as [Hlt|Hge].
    + destruct (Hin ltac:(lia)) as (record & Hnth & ->).
      destruct (IH (acc ++ [(similarity_of distance, record)]))
        as (results & -> & Hall).
      exists ((similarity_of distance, record) :: results). split.
      * now rewrite <- app_assoc.
      * constructor; [split; [reflexivity | exact Hnth] | exact Hall].
    + rewrite (Hskip Hge). apply IH.
Qed.

Lemma length_kept (records : list dict) (hits : list (dist * Z)) :
  (length (kept records hits) <= length hits)%nat.
Proof.
  unfold kept. induction hits as [|hit rest IH]; simpl; [lia|].
  destruct (snd hit <? len records); simpl; lia.
Qed.

(** X6. On a store whose index holds [n > 0] vectors of the dimension of
    the embeddings, whatever the length of the metadata list, [search query k]
    with [k >= 1] returns without raising and leaves the store as it was.
    The index is asked for [min k n] neighbours; the hits whose position is
    not below the length of the metadata list are skipped, and every other
    hit gives one result, in order: at most [min k n] results. *)
Theorem search_skips_positions_without_metadata (w : world) (query : text)
  (k : Z) (i : Index) :
  index (self w) = Some i ->
  0 < ntotal i ->
  width = d i ->
  1 <= k ->
  exists q results,
    rows_of [query] = [q]
    /\ search query k w
       = (Returned results, mkWorld (self w) (encoded w ++ [[query]]))
    /\ Forall2 (result_of (metadata (self w)))
         (kept (metadata (self w)) (knn (xb i) q (Z.min k (ntotal i))))
         results
    /\ len results <= Z.min k (ntotal i).
Proof.
  intros Hidx Hn Hwidth Hk.
  destruct (search_cases w query k i Hidx ltac:(lia)) as (q & Hq & Hrun).
  rewrite Index_search_returns in Hrun by lia.
  assert (0 < Z.min k (ntotal i) <= len (xb i)) as Hrange
    by (unfold ntotal in *; lia).
  assert (Forall (fun hit : dist * Z => 0 <= snd hit)
            (knn (xb i) q (Z.min k (ntotal i)))) as Hvalid.
  { pose proof (knn_valid (xb i) q _ Hrange) as Hv.
    revert Hv. apply Forall_impl. intros hit Hhit. lia. }
  destruct (collect_nonneg (metadata (self w)) _ Hvalid [])
    as (results & Hcollect & Hall).
  exists q, results. split; [exact Hq|]. split; [|split; [exact Hall|]].
  - rewrite Hrun, Hcollect. reflexivity.
  - rewrite (Forall2_len _ _ _ Hall).
    pose proof (length_kept (metadata (self w))
                  (knn (xb i) q (Z.min k (ntotal i)))) as Hle.
    pose proof (knn_count (xb i) q _ Hrange) as Hcount.
    unfold len in *. lia.
Qed.


(** *** Calls in any order *)

Lemma search_keeps_store (query : text) (k : Z) (w : world) :
  self (snd (search query k w)) = self w.
Proof.
  unfold search, bind, get, embed, lift, ret, raise. cbn [self].
  destruct (index (self w)) as [i|]; [|reflexivity].
  destruct (ntotal i =? 0); [reflexivity|]. cbn [self].
  destruct (map as_float32 (map normalize_L2 (encode [query]))) as [|q rest];
    [reflexivity|].
  cbn [self]. destruct (Index_search i width q (Z.min k (ntotal i)));
    reflexivity.
Qed.

Lemma perform_keeps_aligned (o : operation) (w : world) :
  aligned (self w) -> well_formed o -> aligned (self (perform o w)).
Proof.
  intros Hal Hwf. destruct o as [texts given|query k|]; cbn [perform].
  - now apply add_documents_keeps_aligned.
  - now rewrite search_keeps_store.
  - reflexivity.
Qed.

(** X12. Starting from an aligned store, after every call of a sequence of
    [add_documents], [search] and [clear] calls in any order, the metadata
    list is as long as the index holds vectors, provided every
    [add_documents] call has no metadata or one record per text. *)
Theorem operations_keep_alignment (ops : list operation) (w : world) :
  aligned (self w) ->
  Forall well_formed ops ->
  Forall aligned (stores_after ops w).
Proof.
  revert w. induction ops as [|o rest IH]; intros w Hal Hwf; simpl.
  - constructor.
  - inversion Hwf as [|? ? Ho Hrest]; subst.
    pose proof (perform_keeps_aligned o w Hal Ho) as Hal'.
    constructor; [exact Hal' | now apply IH].
Qed.

(** *** The index type *)

Lemma supported_kind_creates (s : Store) :
  supported_kind (index_type s) ->
  _create_index s = Returned (IndexFlatL2 (dimension s)).
Proof.
  unfold _create_index. intros [H|[H|H]]; rewrite H; reflexivity.
Qed.

Lemma supported_kind_target (kind : string) (s : Store) :
  supported_kind (index_type s) -> supported_kind kind ->
  target_index (with_kind kind s) = target_index s.
Proof.
  intros Hs Hk. unfold target_index. cbn [with_kind index].
  destruct (index s); [reflexivity|].
  rewrite (supported_kind_creates s Hs).
  now rewrite (supported_kind_creates (with_kind kind s) Hk).
Qed.

(** X11. The three index types "flat", "ivf" and "hnsw" are one
    implementation.  On two stores that differ only in their index type,
    both among these three, [add_documents] has the same outcome and leaves
    stores that again differ only in the index type, and [search] gives the
    same results. *)
Theorem supported_kinds_behave_alike (kind : string) (w : world)
  (texts : list text) (given : option (list dict)) (query : text) (k : Z) :
  supported_kind (index_type (self w)) ->
  supported_kind kind ->
  add_documents texts given (world_with_kind kind w)
  = (fst (add_documents texts given w),
     world_with_kind kind (snd (add_documents texts given w)))
  /\ search query k (world_with_kind kind w)
     = (fst (search query k w), world_with_kind kind (snd (search query k w))).
Proof.
  intros Hs Hk. split.
  - destruct texts as [|t rest]; [reflexivity|].
    pose proof (add_documents_cases (t :: rest) given w ltac:(discriminate))
      as H1.
    pose proof (add_documents_cases (t :: rest) given (world_with_kind kind w)
                  ltac:(discriminate)) as H2.
    cbv zeta in H1, H2. set (ts := t :: rest) in *.
    cbn [world_with_kind self encoded] in H2.
    rewrite (supported_kind_target kind _ Hs Hk) in H2.
    destruct (target_index (self w)) as [i|e].
    + destruct (width =? d i); rewrite H1, H2; reflexivity.
    + rewrite H1, H2. reflexivity.
  - unfold search, bind, get, embed, lift, ret, raise.
    cbn [world_with_kind self encoded with_kind index metadata].
    destruct (index (self w)) as [i|]; [|reflexivity].
    destruct (ntotal i =? 0); [reflexivity|]. cbn [self encoded].
    destruct (map as_float32 (map normalize_L2 (encode [query])))
      as [|q rest]; [reflexivity|].
    cbn [self encoded metadata].
    destruct (Index_search i width q (Z.min k (ntotal i))); reflexivity.
Qed.

End More.
End StoreMore.

(** * Persistence of the store *)

(** The serializers behind [save] and [_load_index]: [faiss.write_index] and
    [faiss.read_index] for the index, [json.dump] and [json.load] for the
    metadata list.  An index that was written reads back as it was; a
    metadata list that [json.dump] accepts loads back as it was when its
    records are plain JSON objects (string keys, no tuples, no floats, no
    other objects).  When [json.dump] raises, the file opened for writing
    holds [dump_partial]. *)
Class Serializer (vector : Type) : Type := {
  blob : Type;
  write_index : @VectorStore.Index vector -> blob;
  read_index : blob -> outcome (@VectorStore.Index vector);
  dump_json : list VectorStore.dict -> outcome blob;
  dump_partial : list VectorStore.dict -> blob;
  load_json : blob -> outcome (list VectorStore.dict);
  read_write_index : forall i, read_index (write_index i) = Returned i;
  load_dump_json : forall m b,
    Forall (fun record => Py.json_plain (Py.VDict record)) m ->
    dump_json m = Returned b -> load_json b = Returned m
}.

Module Persistence.
Import Py VectorStore.

Section Files.
Context {vector : Type} {serializer : Serializer vector} {host : Host}.

#[local] Abbreviation Store := (@Store vector).
#[local] Abbreviation Index := (@Index vector).
#[local] Abbreviation files := (@files vector).

(** The files on disk, by path. *)
Definition filesystem : Type := string -> option blob.

Definition write_file (path : string) (content : blob) (fs : filesystem)
  : filesystem :=
  fun p => if String.eqb p path then Some content else fs p.

(** [self.model_dir / name], as a string. *)
Definition joinpath (dir name : string) : string :=
  (dir ++ "/" ++ name)%string.

Definition default_index_path (s : Store) : string :=
  joinpath (model_dir s) "faiss_index.bin".

Definition default_metadata_path (s : Store) : string :=
  joinpath (model_dir s) "faiss_metadata.json".

(** [save] *)
Definition save (s : Store) (index_path metadata_path : option string)
  (fs : filesystem) : outcome unit * filesystem :=
  match index s with
  | None => (Returned tt, fs)
  | Some i =>
      let index_path :=
        match index_path with
        | Some p => p
        | None => default_index_path s
        end in
      let metadata_path :=
        match metadata_path with
        | Some p => p
        | None => default_metadata_path s
        end in
      let fs := write_file index_path (write_index i) fs in
      match dump_json (metadata s) with
      | Returned content => (Returned tt, write_file metadata_path content fs)
      | Raised e =>
          (Raised e, write_file metadata_path (dump_partial (metadata s)) fs)
      end
  end.

(** What [_load_index] finds under [model_dir]. *)
Definition files_at (fs : filesystem) (model_dir : string) : files :=
  mkFiles
    (option_map read_index (fs (joinpath model_dir "faiss_index.bin")))
    (option_map load_json (fs (joinpath model_dir "faiss_metadata.json"))).

(** [VectorStore(...)] on a file system. *)
Definition construct (embedding_model : string) (dimension : Z)
  (index_type : string) (model_dir : option pathlike) (fs : filesystem)
  : outcome Store :=
  __init__ embedding_model dimension index_type model_dir
    (files_at fs (directory model_dir)).

End Files.
End Persistence.

Module PersistenceFacts.
Import Py PyFacts VectorStore StoreSpec StoreFacts Persistence.

Section Facts.
Context {vector : Type} {serializer : Serializer vector} {host : Host}.

#[local] Abbreviation Store := (@Store vector).
#[local] Abbreviation Index := (@Index vector).
#[local] Abbreviation files := (@files vector).
#[local] Abbreviation filesystem := (@filesystem vector serializer).

(** The metadata records are plain JSON objects. *)
Definition plain_records (m : list dict) : Prop :=
  Forall (fun record => json_plain (VDict record)) m.

Lemma append_cancel (a b c : string) :
  (a ++ b = a ++ c)%string -> b = c.
Proof.
  induction a as [|ch a IH]; simpl; [easy|].
  intros [= H]. now apply IH.
Qed.

Lemma default_paths_differ (dir : string) :
  String.eqb (joinpath dir "faiss_index.bin")
             (joinpath dir "faiss_metadata.json") = false.
Proof.
  apply String.eqb_neq. unfold joinpath. intros H.
  apply append_cancel in H. discriminate.
Qed.

(** A store constructed with the path object another store has as its
    [model_dir], when the directory can be made and the model loads. *)
Lemma construct_on (s : Store) (fs : filesystem) (embedding_model : string)
  (dimension : Z) (kind : string) :
  mkdir (model_dir s) = Returned tt ->
  SentenceTransformer embedding_model = Returned tt ->
  construct embedding_model dimension kind (Some (AsPath (model_dir s))) fs
  = Returned
      (_load_index
         (mkStore embedding_model dimension kind (model_dir s) None [])
         (files_at fs (model_dir s))).
Proof.
  intros Hmkdir Hmodel. unfold construct, __init__.
  cbn [directory given_dir]. now rewrite Hmkdir, Hmodel.
Qed.

(** What [save] leaves on disk, by the outcome of [json.dump]. *)
Lemma save_cases (s : Store) (i : Index) (fs : filesystem) :
  index s = Some i ->
  let written := write_file (default_index_path s) (write_index i) fs in
  save s None None fs
  = match dump_json (metadata s) with
    | Returned content =>
        (Returned tt, write_file (default_metadata_path s) content written)
    | Raised e =>
        (Raised e,
         write_file (default_metadata_path s) (dump_partial (metadata s))
           written)
    end.
Proof.
  intros Hidx. unfold save. rewrite Hidx.
  destruct (dump_json (metadata s)); reflexivity.
Qed.

(** The two default files once both were written. *)
Lemma files_at_written (dir : string) (a b : blob) (fs : filesystem) :
  files_at
    (write_file (joinpath dir "faiss_metadata.json") b
       (write_file (joinpath dir "faiss_index.bin") a fs)) dir
  = mkFiles (Some (read_index a)) (Some (load_json b)).
Proof.
  unfold files_at, write_file.
  now rewrite (default_paths_differ dir), !String.eqb_refl.
Qed.

Lemma save_without_index (s : Store) (index_path metadata_path : option string)
  (fs : filesystem) :
  index s = None -> save s index_path metadata_path fs = (Returned tt, fs).
Proof. intros Hidx. unfold save. now rewrite Hidx. Qed.

(** X8. A store that holds an index and a metadata list of plain JSON
    records, saved to the default paths, is read back by a store constructed
    on the same directory (when the directory can be made and the model
    loads, as for every construction): the new store holds the same index
    and the same metadata list, whatever was in the directory before. *)
Theorem save_then_construct (s : Store) (i : Index) (content : blob)
  (fs : filesystem) (embedding_model : string) (dimension : Z)
  (kind : string) :
  index s = Some i ->
  plain_records (metadata s) ->
  dump_json (metadata s) = Returned content ->
  mkdir (model_dir s) = Returned tt ->
  SentenceTransformer embedding_model = Returned tt ->
  fst (save s None None fs) = Returned tt
  /\ exists s',
       construct embedding_model dimension kind (Some (AsPath (model_dir s)))
         (snd (save s None None fs)) = Returned s'
       /\ index s' = Some i
       /\ metadata s' = metadata s.
Proof.
  intros Hidx Hplain Hdump Hmkdir Hmodel.
  pose proof (save_cases s i fs Hidx) as Hsave. cbv zeta in Hsave.
  rewrite Hdump in Hsave. rewrite Hsave. cbn [fst snd].
  split; [reflexivity|]. eexists. split.
  { now apply construct_on. }
  unfold default_metadata_path, default_index_path.
  rewrite files_at_written, read_write_index,
    (load_dump_json _ _ Hplain Hdump).
  split; reflexivity.
Qed.

(** X9. [save] on a store without an index writes nothing, so [clear]
    followed by [save] does not erase what an earlier [save] persisted: a
    store constructed afterwards on the same directory holds the index and
    the metadata list (of plain JSON records) that were saved before the
    [clear]. *)
Theorem clear_then_save_keeps_files (s : Store) (i : Index) (content : blob)
  (fs : filesystem) (log : list (list text)) (embedding_model : string)
  (dimension : Z) (kind : string) :
  index s = Some i ->
  plain_records (metadata s) ->
  dump_json (metadata s) = Returned content ->
  mkdir (model_dir s) = Returned tt ->
  SentenceTransformer embedding_model = Returned tt ->
  let saved := snd (save s None None fs) in
  let cleared := self (snd (clear (mkWorld s log))) in
  index cleared = None
  /\ metadata cleared = []
  /\ save cleared None None saved = (Returned tt, saved)
  /\ exists s',
       construct embedding_model dimension kind
         (Some (AsPath (model_dir cleared)))
         (snd (save cleared None None saved)) = Returned s'
       /\ index s' = Some i
       /\ metadata s' = metadata s.
Proof.
  intros Hidx Hplain Hdump Hmkdir Hmodel saved cleared.
  assert (save cleared None None saved = (Returned tt, saved)) as Hnoop
    by (now apply save_without_index).
  split; [reflexivity|]. split; [reflexivity|]. split; [exact Hnoop|].
  rewrite Hnoop. cbn [snd]. change (model_dir cleared) with (model_dir s).
  eexists. split.
  { now apply construct_on. }
  unfold saved.
  pose proof (save_cases s i fs Hidx) as Hsave. cbv zeta in Hsave.
  rewrite Hdump in Hsave. rewrite Hsave. cbn [snd].
  unfold default_metadata_path, default_index_path.
  rewrite files_at_written, read_write_index,
    (load_dump_json _ _ Hplain Hdump).
  split; reflexivity.
Qed.

(** X22. [save] is not atomic.  When [json.dump] raises on the metadata
    list, the index file has already been replaced and the metadata file has
    been opened for writing; if what was written of it does not load, a
    store constructed afterwards on the same directory starts with no index
    and no metadata, whatever the two files held before the call. *)
Theorem failed_save_leaves_no_state (s : Store) (i : Index) (e e' : exn)
  (fs : filesystem) (embedding_model : string) (dimension : Z)
  (kind : string) :
  index s = Some i ->
  dump_json (metadata s) = Raised e ->
  load_json (dump_partial (metadata s)) = Raised e' ->
  mkdir (model_dir s) = Returned tt ->
  SentenceTransformer embedding_model = Returned tt ->
  fst (save s None None fs) = Raised e
  /\ snd (save s None None fs) (default_index_path s) = Some (write_index i)
  /\ exists s',
       construct embedding_model dimension kind (Some (AsPath (model_dir s)))
         (snd (save s None None fs)) = Returned s'
       /\ index s' = None
       /\ metadata s' = [].
Proof.
  intros Hidx Hdump Hpartial Hmkdir Hmodel.
  pose proof (save_cases s i fs Hidx) as Hsave. cbv zeta in Hsave.
  rewrite Hdump in Hsave. rewrite Hsave. cbn [fst snd].
  split; [reflexivity|]. split.
  - unfold write_file, default_metadata_path, default_index_path.
    now rewrite (default_paths_differ (model_dir s)), String.eqb_refl.
  - eexists. split.
    { now apply construct_on. }
    unfold default_metadata_path, default_index_path.
    rewrite files_at_written, read_write_index, Hpartial.
    split; reflexivity.
Qed.


End Facts.
End PersistenceFacts.

(** * Parsing documents *)

(** Exceptions of the modules that read files, with their message, and the
    outcome of a call that may raise one.  [LibraryError description] is any
    exception raised inside a library or by the operating system;
    [description] is what [str] gives for it. *)
Module IO.
Import Py.

Inductive error : Type :=
| FileNotFoundError (msg : text)
| ValueError (msg : text)
| TypeError (msg : text)
| LibraryError (description : text).

Definition describe (e : error) : text :=
  match e with
  | FileNotFoundError msg => msg
  | ValueError msg => msg
  | TypeError msg => msg
  | LibraryError description => description
  end.

Inductive result (A : Type) : Type :=
| Return (a : A)
| Raise (e : error).
Arguments Return {A} a.
Arguments Raise {A} e.

(** [sep.join(parts)] *)
Fixpoint join (sep : text) (parts : list text) : text :=
  match parts with
  | [] => []
  | [part] => part
  | part :: rest => part ++ sep ++ join sep rest
  end.

Fixpoint text_eqb (a b : text) : bool :=
  match a, b with
  | [], [] => true
  | x :: a', y :: b' => (x =? y)%N && text_eqb a' b'
  | _, _ => false
  end.

(** [x in collection] for a collection of strings. *)
Definition mem (x : text) (collection : list text) : bool :=
  existsb (text_eqb x) collection.

End IO.

Module Documents.
Import Py IO.

(** A value read by [json.load]; a scalar is kept as the library gives it. *)
#[local] Unset Elimination Schemes.
Inductive json (scalar : Type) : Type :=
| JDict (members : list (text * json scalar))
| JList (items : list (json scalar))
| JScalar (value : scalar).
#[local] Set Elimination Schemes.
Arguments JDict {scalar} members.
Arguments JList {scalar} items.
Arguments JScalar {scalar} value.

(** What reading a file as UTF-8 gives. *)
Inductive utf8_read : Type :=
| Utf8Text (t : text)
| Utf8DecodeError
| Utf8Failure (e : error).

(** An argument that is a string or a path object; a path object is given
    by its text, which is what [str] and an f-string make of it. *)
Inductive path_arg : Type :=
| FromStr (s : text)
| FromPath (p : text).

(** The ['metadata'] entry of a parsed document. *)
Record file_metadata : Type := mkMetadata {
  file_path : text;
  file_name : text;
  file_size : Z;
  metadata_format : text
}.

(** The dictionary [parse] returns. *)
Record document : Type := mkDocument {
  content : text;
  metadata : file_metadata;
  format : text
}.

Section Parser.
Context {scalar : Type}.

(** The file system and the libraries that read the formats.  [Path s] is
    the text of the path object made from the string [s]; every other
    function takes the text of a path object.  [exists_], [is_dir],
    [is_file], [iterdir] and [st_size] are the methods of the path object
    ([st_size] is [stat().st_size]); they raise what the operating system
    refuses.  [pdf_pages] is the text of each page, [docx_paragraphs] the
    text of each paragraph; [lower] is [str.lower], [dumps] is
    [json.dumps(_, indent=2)] and [to_str] is [str] on a scalar. *)
Record environment : Type := mkEnvironment {
  Path : text -> text;
  exists_ : text -> result bool;
  is_dir : text -> result bool;
  is_file : text -> result bool;
  iterdir : text -> result (list text);
  name : text -> text;
  suffix : text -> text;
  st_size : text -> result Z;
  pdf_pages : text -> result (list text);
  docx_paragraphs : text -> result (list text);
  read_utf8 : text -> utf8_read;
  read_latin1 : text -> result text;
  load : text -> result (json scalar);
  lower : text -> text;
  dumps : json scalar -> text;
  to_str : scalar -> text
}.

Variable env : environment.

(** [Path(arg)] *)
Definition to_path (arg : path_arg) : text :=
  match arg with
  | FromStr s => Path env s
  | FromPath p => p
  end.

(** [self.supported_formats] *)
Definition supported_formats : list text :=
  [str ".pdf"; str ".docx"; str ".txt"; str ".md"; str ".json"].

Definition blank_line : text := [newline; newline].

(** [_parse_pdf] *)
Definition _parse_pdf (file_path : text) : result text :=
  match pdf_pages env file_path with
  | Return text_parts => Return (join blank_line text_parts)
  | Raise e =>
      Raise (ValueError (str "Error parsing PDF " ++ file_path ++ str ": "
                           ++ describe e))
  end.

(** [_parse_docx] *)
Definition _parse_docx (file_path : text) : result text :=
  match docx_paragraphs env file_path with
  | Return paragraphs => Return (join blank_line paragraphs)
  | Raise e =>
      Raise (ValueError (str "Error parsing DOCX " ++ file_path ++ str ": "
                           ++ describe e))
  end.

(** [_parse_txt]: a file that is not UTF-8 is read again as Latin-1, and a
    failure of that second reading is not wrapped. *)
Definition _parse_txt (file_path : text) : result text :=
  match read_utf8 env file_path with
  | Utf8Text t => Return t
  | Utf8DecodeError => read_latin1 env file_path
  | Utf8Failure e =>
      Raise (ValueError (str "Error parsing text file " ++ file_path
                           ++ str ": " ++ describe e))
  end.

(** One line of the flattened form of a JSON object. *)
Definition flatten_member (member : text * json scalar) : text :=
  match snd member with
  | JScalar value => fst member ++ str ": " ++ to_str env value
  | value => fst member ++ str ": " ++ dumps env value
  end.

(** [_parse_json] *)
Definition _parse_json (file_path : text) : result text :=
  match load env file_path with
  | Return (JDict members) => Return (join [newline] (map flatten_member members))
  | Return (JList items) => Return (join [newline] (map (dumps env) items))
  | Return (JScalar value) => Return (to_str env value)
  | Raise e =>
      Raise (ValueError (str "Error parsing JSON " ++ file_path ++ str ": "
                           ++ describe e))
  end.

(** [parser_map] *)
Definition parser_map : list (text * (text -> result text)) :=
  [ (str ".pdf", _parse_pdf);
    (str ".docx", _parse_docx);
    (str ".txt", _parse_txt);
    (str ".md", _parse_txt);
    (str ".json", _parse_json) ].

Fixpoint lookup {A} (key : text) (entries : list (text * A)) : option A :=
  match entries with
  | [] => None
  | (k, v) :: rest => if text_eqb key k then Some v else lookup key rest
  end.

(** [parse] *)
Definition parse (file_path : path_arg) : result document :=
  let file_path := to_path file_path in
  match exists_ env file_path with
  | Raise e => Raise e
  | Return false =>
      Raise (FileNotFoundError (str "File not found: " ++ file_path))
  | Return true =>
      let file_ext := lower env (suffix env file_path) in
      if negb (mem file_ext supported_formats) then
        Raise (ValueError (str "Unsupported file format: " ++ file_ext))
      else
        match lookup file_ext parser_map with
        | None => Raise (LibraryError (str "KeyError"))
        | Some parser =>
            match parser file_path with
            | Raise e => Raise e
            | Return content =>
                match st_size env file_path with
                | Raise e => Raise e
                | Return file_size =>
                    Return (mkDocument content
                              (mkMetadata file_path (name env file_path)
                                 file_size file_ext)
                              file_ext)
                end
            end
        end
  end.

(** The loop of [parse_directory] over the entries of the directory, which
    are path objects. *)
Fixpoint parse_entries (entries : list text) (parsed_docs : list document)
  : result (list document) :=
  match entries with
  | [] => Return parsed_docs
  | file_path :: rest =>
      match is_file env file_path with
      | Raise e => Raise e
      | Return regular =>
          if regular
             && mem (lower env (suffix env file_path)) supported_formats
          then
            match parse (FromPath file_path) with
            | Return parsed => parse_entries rest (parsed_docs ++ [parsed])
            | Raise _ => parse_entries rest parsed_docs
            end
          else parse_entries rest parsed_docs
      end
  end.

(** [parse_directory] *)
Definition parse_directory (directory : path_arg) : result (list document) :=
  let directory := to_path directory in
  match is_dir env directory with
  | Raise e => Raise e
  | Return false => Raise (ValueError (str "Not a directory: " ++ directory))
  | Return true =>
      match iterdir env directory with
      | Raise e => Raise e
      | Return entries => parse_entries entries []
      end
  end.

End Parser.
End Documents.

Module DocumentsFacts.
Import Py IO Documents.

Lemma text_eqb_eq (a b : text) : text_eqb a b = true <-> a = b.
Proof.
  revert b. induction a as [|x a IH]; intros [|y b]; simpl;
    try (split; [discriminate | discriminate]); [tauto|].
  rewrite andb_true_iff, N.eqb_eq, IH. split.
  - now intros [-> ->].
  - now intros [= -> ->].
Qed.

Lemma mem_In (x : text) (collection : list text) :
  mem x collection = true <-> In x collection.
Proof.
  unfold mem. rewrite existsb_exists. split.
  - intros (y & Hin & Heq). apply text_eqb_eq in Heq. now subst.
  - intros Hin. exists x. split; [exact Hin | now apply text_eqb_eq].
Qed.

Section Facts.
Context {scalar : Type}.
Variable env : @environment scalar.

(** Every supported format has its parser. *)
Lemma parser_map_complete (file_ext : text) :
  mem file_ext supported_formats = true ->
  exists parser, lookup file_ext (parser_map env) = Some parser.
Proof.
  intros Hmem. apply mem_In in Hmem. unfold supported_formats in Hmem.
  simpl in Hmem.
  destruct Hmem as [<-|[<-|[<-|[<-|[<-|[]]]]]]; eexists; reflexivity.
Qed.

(** What the parser of a supported format raises: [ValueError], or what
    the Latin-1 reading of a text file raised. *)
Lemma parser_raises (file_ext file_path : text)
  (parser : text -> result text) (e : error) :
  lookup file_ext (parser_map env) = Some parser ->
  parser file_path = Raise e ->
  (exists msg, e = ValueError msg)
  \/ (read_utf8 env file_path = Utf8DecodeError
      /\ read_latin1 env file_path = Raise e).
Proof.
  unfold parser_map. cbn [lookup].
  repeat match goal with
         | |- context [text_eqb ?a ?b] => destruct (text_eqb a b)
         end;
    intros [= <-]; intros H.
  - unfold _parse_pdf in H. destruct (pdf_pages env file_path);
      [discriminate|]. injection H as <-. left; eexists; reflexivity.
  - unfold _parse_docx in H. destruct (docx_paragraphs env file_path);
      [discriminate|]. injection H as <-. left; eexists; reflexivity.
  - unfold _parse_txt in H. destruct (read_utf8 env file_path);
      [discriminate | right; tauto |].
    injection H as <-. left; eexists; reflexivity.
  - unfold _parse_txt in H. destruct (read_utf8 env file_path);
      [discriminate | right; tauto |].
    injection H as <-. left; eexists; reflexivity.
  - unfold _parse_json in H. destruct (load env file_path) as [[| |]|];
      try discriminate.
    injection H as <-. left; eexists; reflexivity.
Qed.

(** X23. What [parse] wraps and what it lets through.  An exception that
    [parse] raises is the [FileNotFoundError] for a missing path, or a
    [ValueError] (an unsupported format, or the wrapped error of the PDF,
    DOCX, text or JSON reader), or else one of three that are not wrapped:
    what [exists()] raised, what [stat()] raised after the file was read, or
    what the second reading of a text file as Latin-1 raised. *)
Theorem parse_raises_value_error (file_path : path_arg) (e : error) :
  parse env file_path = Raise e ->
  exists_ env (to_path env file_path) = Raise e
  \/ (exists_ env (to_path env file_path) = Return false
      /\ e = FileNotFoundError
               (str "File not found: " ++ to_path env file_path))
  \/ (exists msg, e = ValueError msg)
  \/ (read_utf8 env (to_path env file_path) = Utf8DecodeError
      /\ read_latin1 env (to_path env file_path) = Raise e)
  \/ (exists parser content,
        lookup (lower env (suffix env (to_path env file_path)))
          (parser_map env) = Some parser
        /\ parser (to_path env file_path) = Return content
        /\ st_size env (to_path env file_path) = Raise e).
Proof.
  unfold parse. set (p := to_path env file_path).
  destruct (exists_ env p) as [[|]|e0];
    [| intros [= <-]; right; left; split; reflexivity
     | intros [= <-]; left; reflexivity].
  destruct (mem _ _) eqn:Hmem; cbn [negb];
    [|intros [= <-]; right; right; left; eexists; reflexivity].
  destruct (parser_map_complete _ Hmem) as [parser Hparser].
  rewrite Hparser.
  destruct (parser p) as [content|e0] eqn:Hrun.
  - destruct (st_size env p) as [size|e1]; [discriminate|].
    intros [= <-]. right; right; right; right. now exists parser, content.
  - intros [= <-].
    destruct (parser_raises _ p parser e0 Hparser Hrun) as [H|H];
      [right; right; left; exact H | right; right; right; left; exact H].
Qed.









End Facts.
End DocumentsFacts.

(** * Chunking and indexing the parsed documents *)

Module EmbedPersonalDocs.
Import Py DocumentParser Documents.

(** The metadata dictionary [main] builds for one chunk. *)
Record chunk_metadata : Type := mkChunkMetadata {
  source_file : text;
  chunk_index : Z;
  total_chunks : Z;
  file_format : text;
  text_preview : text
}.

(** [chunk[:100] + '...' if len(chunk) > 100 else chunk] *)
Definition preview (chunk : text) : text :=
  if 100 <? len chunk then slice_to chunk 100 ++ str "..." else chunk.

(** The loop [for i, chunk in enumerate(chunks)] for one document; [i] is
    the index of the head of [remaining]. *)
Fixpoint append_chunks (doc : document) (total : Z) (i : Z)
  (remaining : list text)
  (all_chunks : list text) (all_metadata : list chunk_metadata)
  : list text * list chunk_metadata :=
  match remaining with
  | [] => (all_chunks, all_metadata)
  | chunk :: rest =>
      append_chunks doc total (i + 1) rest
        (all_chunks ++ [chunk])
        (all_metadata
         ++ [mkChunkMetadata (file_name (metadata doc)) i total
               (format doc) (preview chunk)])
  end.

(** The loop [for doc in parsed_docs]; [fuel] is the fuel given to each call
    of [chunk_text]. *)
Fixpoint chunk_documents (fuel : nat) (parsed_docs : list document)
  (all_chunks : list text) (all_metadata : list chunk_metadata)
  : option (outcome (list text * list chunk_metadata)) :=
  match parsed_docs with
  | [] => Some (Returned (all_chunks, all_metadata))
  | doc :: rest =>
      match chunk_text fuel (content doc) 500 50 with
      | None => None
      | Some (Raised e) => Some (Raised e)
      | Some (Returned chunks) =>
          let '(all_chunks, all_metadata) :=
            append_chunks doc (len chunks) 0 chunks all_chunks all_metadata in
          chunk_documents fuel rest all_chunks all_metadata
      end
  end.

(** The record as the dictionary [main] writes, with its keys in order. *)
Definition chunk_record (r : chunk_metadata) : VectorStore.dict :=
  [ (VStr (str "source_file"), VStr (source_file r));
    (VStr (str "chunk_index"), VInt (chunk_index r));
    (VStr (str "total_chunks"), VInt (total_chunks r));
    (VStr (str "file_format"), VStr (file_format r));
    (VStr (str "text_preview"), VStr (text_preview r)) ].

Section Indexing.
Context {vector dist : Type}.
Context {embedder : Embedder vector} {lib : IndexLibrary vector dist}.

(** [as_dict] is the way a metadata record is handed to the store; [main]
    hands over [chunk_record]. *)
Variable as_dict : chunk_metadata -> VectorStore.dict.

(** The chunking loop followed by
    [vector_store.add_documents(all_chunks, all_metadata)]. *)
Definition index_documents (fuel : nat) (parsed_docs : list document)
  (w : @VectorStore.world vector)
  : option (outcome unit * @VectorStore.world vector) :=
  match chunk_documents fuel parsed_docs [] [] with
  | None => None
  | Some (Raised e) => Some (Raised e, w)
  | Some (Returned (all_chunks, all_metadata)) =>
      Some (VectorStore.add_documents all_chunks
              (Some (map as_dict all_metadata)) w)
  end.

End Indexing.
End EmbedPersonalDocs.

Module EmbedPersonalDocsFacts.
Import Py PyFacts DocumentParser ChunkerSpec ChunkerFacts ChunkerMore.
Import Documents EmbedPersonalDocs.

(** A chunk and the metadata record made for it. *)
Definition record_for (doc : document) (chunk : text) (r : chunk_metadata)
  : Prop :=
  source_file r = file_name (metadata doc)
  /\ file_format r = format doc
  /\ text_preview r = preview chunk
  /\ 0 <= chunk_index r < total_chunks r.

Lemma len_preview (chunk : text) :
  len (preview chunk) <= 103 /\ len (preview chunk) <= len chunk + 3.
Proof.
  unfold preview. pose proof (len_nonneg chunk).
  destruct (Z.ltb_spec 100 (len chunk)).
  - rewrite len_app. change (len (str "...")) with 3.
    pose proof (len_slice_le chunk 0 100 ltac:(lia) ltac:(lia)).
    unfold slice_to. lia.
  - lia.
Qed.

Lemma append_chunks_spec (doc : document) (total : Z) :
  forall remaining i all_chunks all_metadata,
    0 <= i -> i + len remaining <= total ->
    exists records,
      append_chunks doc total i remaining all_chunks all_metadata
      = (all_chunks ++ remaining, all_metadata ++ records)
      /\ Forall2 (record_for doc) remaining records
      /\ map chunk_index records
         = map (fun j => i + Z.of_nat j) (seq 0 (length remaining))
      /\ Forall (fun r => total_chunks r = total) records.
Proof.
  induction remaining as [|chunk rest IH]; intros i all_chunks all_metadata Hi Htot.
  - exists []. simpl. rewrite !app_nil_r. repeat split; constructor.
  - cbn [append_chunks].
    assert (len (chunk :: rest) = 1 + len rest) as Hlen
      by (unfold len; simpl length; lia).
    pose proof (len_nonneg rest).
    destruct (IH (i + 1) (all_chunks ++ [chunk])
                (all_metadata
                 ++ [mkChunkMetadata (file_name (metadata doc)) i total
                       (format doc) (preview chunk)])
                ltac:(lia) ltac:(lia))
      as (records & -> & Hall & Hidx & Htotal).
    eexists (_ :: records). split; [|split; [|split]].
    + rewrite <- !app_assoc. reflexivity.
    + constructor; [|exact Hall]. unfold record_for. cbn. repeat split; lia.
    + cbn [map chunk_index length seq]. rewrite Hidx. f_equal; [lia|].
      rewrite <- seq_shift, map_map. apply map_ext. intros j. lia.
    + constructor; [reflexivity | exact Htotal].
Qed.

(** The chunks and metadata records that [main] collects for a list of
    documents, given the chunks of each document. *)
Inductive collected : list document -> list text -> list chunk_metadata
                      -> Prop :=
| collected_nil : collected [] [] []
| collected_cons doc rest chunks records all_chunks all_metadata :
    (forall fuel, (length (content doc) < fuel)%nat ->
       chunk_text fuel (content doc) 500 50 = Some (Returned chunks)) ->
    chunks <> [] ->
    Forall2 (record_for doc) chunks records ->
    map chunk_index records = map Z.of_nat (seq 0 (length chunks)) ->
    Forall (fun r => total_chunks r = len chunks) records ->
    collected rest all_chunks all_metadata ->
    collected (doc :: rest) (chunks ++ all_chunks) (records ++ all_metadata).

Lemma collected_lengths docs all_chunks all_metadata :
  collected docs all_chunks all_metadata ->
  length all_metadata = length all_chunks
  /\ (length docs <= length all_chunks)%nat.
Proof.
  induction 1 as [|doc rest chunks records all_chunks all_metadata
                    _ Hne Hrec _ _ _ [IH1 IH2]].
  - split; reflexivity.
  - rewrite !length_app. pose proof (Forall2_length Hrec) as Hlen.
    split; [lia|]. destruct chunks; [congruence | simpl; lia].
Qed.

Lemma chunk_documents_spec (fuel : nat) :
  forall docs acc_chunks acc_metadata,
    Forall (fun doc => (length (content doc) < fuel)%nat) docs ->
    exists all_chunks all_metadata,
      chunk_documents fuel docs acc_chunks acc_metadata
      = Some (Returned (acc_chunks ++ all_chunks, acc_metadata ++ all_metadata))
      /\ collected docs all_chunks all_metadata.
Proof.
  induction docs as [|doc rest IH]; intros acc_chunks acc_metadata Hfuel.
  - exists [], []. simpl. rewrite !app_nil_r. split; [reflexivity | constructor].
  - inversion Hfuel as [|? ? Hdoc Hrest]; subst.
    assert (0 < 500 <= 2 ^ 52) as Hcs
      by (split; [lia | vm_compute; discriminate]).
    destruct (chunk_text_run (content doc) 500 50 Hcs ltac:(lia))
      as (chunks & Hrun & Hne & _).
    cbn [chunk_documents]. rewrite (Hrun fuel Hdoc).
    destruct (append_chunks_spec doc (len chunks) chunks 0 acc_chunks
                acc_metadata ltac:(lia) ltac:(lia))
      as (records & -> & Hrec & Hidx & Htotal).
    destruct (IH (acc_chunks ++ chunks) (acc_metadata ++ records) Hrest)
      as (all_chunks & all_metadata & -> & Hcollected).
    exists (chunks ++ all_chunks), (records ++ all_metadata).
    rewrite <- !app_assoc. split; [reflexivity|].
    constructor; assumption.
Qed.


Lemma collected_records docs all_chunks all_metadata :
  collected docs all_chunks all_metadata ->
  Forall (fun r => 0 <= chunk_index r < total_chunks r
                   /\ len (text_preview r) <= 103) all_metadata.
Proof.
  induction 1 as [|doc rest chunks records all_chunks all_metadata
                    _ _ Hrec _ _ _ IH].
  - constructor.
  - apply Forall_app. split; [|exact IH].
    clear -Hrec. induction Hrec as [|chunk r chunks records Hr _ IH];
      constructor; [|exact IH].
    destruct Hr as (_ & _ & Hpreview & Hidx). split; [exact Hidx|].
    rewrite Hpreview. apply len_preview.
Qed.

(** X13. The chunking loop of [main] returns for every list of parsed
    documents (each document chunked with chunk size 500 and overlap 50, with
    fuel above the length of its content).  It builds exactly one metadata
    record per chunk, in the order of the chunks, and at least one chunk per
    document; in every record the chunk index is below the chunk count of
    its document and the preview has at most 103 characters. *)
Theorem chunk_documents_one_record_per_chunk (fuel : nat)
  (parsed_docs : list document) :
  Forall (fun doc => (length (content doc) < fuel)%nat) parsed_docs ->
  exists all_chunks all_metadata,
    chunk_documents fuel parsed_docs [] []
    = Some (Returned (all_chunks, all_metadata))
    /\ collected parsed_docs all_chunks all_metadata
    /\ length all_metadata = length all_chunks
    /\ (length parsed_docs <= length all_chunks)%nat
    /\ Forall (fun r => 0 <= chunk_index r < total_chunks r
                        /\ len (text_preview r) <= 103) all_metadata.
Proof.
  intros Hfuel.
  destruct (chunk_documents_spec fuel parsed_docs [] [] Hfuel)
    as (all_chunks & all_metadata & Hrun & Hcollected).
  destruct (collected_lengths _ _ _ Hcollected) as [Hlen Hdocs].
  exists all_chunks, all_metadata.
  split; [exact Hrun|]. split; [exact Hcollected|].
  split; [exact Hlen|]. split; [exact Hdocs|].
  exact (collected_records _ _ _ Hcollected).
Qed.

Section Indexing.
Import VectorStore StoreSpec StoreFacts.
Context {vector dist : Type}.
Context {embedder : Embedder vector} {lib : IndexLibrary vector dist}.
Variable as_dict : chunk_metadata -> dict.

(** X16. The call [add_documents(all_chunks, all_metadata)] that [main]
    makes after the chunking loop always passes one record per text: made on
    an aligned store it leaves an aligned store, whether it returns or
    raises, and when it returns the index holds one more vector for every
    chunk. *)
Theorem index_documents_keeps_alignment (fuel : nat)
  (parsed_docs : list document) (w : @world vector) :
  Forall (fun doc => (length (content doc) < fuel)%nat) parsed_docs ->
  aligned (self w) ->
  exists r w' all_chunks all_metadata,
    chunk_documents fuel parsed_docs [] []
    = Some (Returned (all_chunks, all_metadata))
    /\ index_documents as_dict fuel parsed_docs w = Some (r, w')
    /\ fits all_chunks (Some (map as_dict all_metadata))
    /\ aligned (self w')
    /\ (r = Returned tt ->
        index_count (self w') = index_count (self w) + len all_chunks).
Proof.
  intros Hfuel Hal.
  destruct (chunk_documents_spec fuel parsed_docs [] [] Hfuel)
    as (all_chunks & all_metadata & Hrun & Hcollected).
  destruct (collected_lengths _ _ _ Hcollected) as [Hlen _].
  simpl in Hrun.
  assert (fits all_chunks (Some (map as_dict all_metadata))) as Hfit.
  { unfold fits, supplied. destruct (map as_dict all_metadata) eqn:Hmap;
      [exact I|]. rewrite <- Hmap, length_map. exact Hlen. }
  exists (fst (add_documents all_chunks (Some (map as_dict all_metadata)) w)),
         (snd (add_documents all_chunks (Some (map as_dict all_metadata)) w)),
         all_chunks, all_metadata.
  split; [exact Hrun|]. split; [|split; [exact Hfit|split]].
  - unfold index_documents. rewrite Hrun. now destruct (add_documents _ _ w).
  - now apply add_documents_keeps_aligned.
  - destruct all_chunks as [|c rest]; [intros _; cbn; unfold len; simpl; lia|].
    pose proof (add_documents_cases (c :: rest)
                  (Some (map as_dict all_metadata)) w ltac:(discriminate))
      as Hcases.
    cbv zeta in Hcases. set (ts := c :: rest) in *.
    destruct (target_index (self w)) as [i|e] eqn:Htarget.
    + pose proof (target_index_count _ _ Htarget) as Hcount.
      destruct (width =? d i); rewrite Hcases; cbn [fst snd self].
      * intros _. unfold index_count at 1, set_metadata, set_index.
        simpl index. unfold ntotal in *. simpl xb.
        rewrite len_app, len_rows_of. lia.
      * discriminate.
    + rewrite Hcases. discriminate.
Qed.

End Indexing.
End EmbedPersonalDocsFacts.

(** * The configuration loader *)

Module ConfigLoader.
Import Py IO.

(** A value built by [yaml.safe_load]: [YNull] is [None], a mapping keeps
    its entries in order (its keys may be any scalar), [YOther] is a value of
    a type that is neither a container nor a string (a date, for example). *)
#[local] Unset Elimination Schemes.
Inductive yaml : Type :=
| YNull
| YBool (b : bool)
| YInt (n : Z)
| YFloat (x : float)
| YStr (s : text)
| YList (items : list yaml)
| YDict (entries : list (yaml * yaml))
| YOther (tag : N).
#[local] Set Elimination Schemes.

(** [key_path.split('.')] for a one-character separator. *)
Fixpoint split (sep : char) (s : text) : list text :=
  match s with
  | [] => [[]]
  | c :: rest =>
      if (c =? sep)%N then [] :: split sep rest
      else
        match split sep rest with
        | [] => [[c]]
        | word :: words => (c :: word) :: words
        end
  end.

(** [value[key]] for a string [key] that is in the mapping. *)
Fixpoint lookup_key (key : text) (entries : list (yaml * yaml))
  : option yaml :=
  match entries with
  | [] => None
  | (YStr k, v) :: rest =>
      if text_eqb key k then Some v else lookup_key key rest
  | _ :: rest => lookup_key key rest
  end.

(** The attributes of [self]. *)
Record Loader : Type := mkLoader { config_path : text; config : yaml }.

(** What [load] finds at a path: nothing, or what [yaml.safe_load] returns
    or raises for the file. *)
Definition disk : Type := text -> option (result yaml).

(** [load]: the value returned and the loader afterwards. *)
Definition load (self : Loader) (files : disk) : result yaml * Loader :=
  match files (config_path self) with
  | None =>
      (Raise (FileNotFoundError
                (str "Config file not found: " ++ config_path self)), self)
  | Some (Raise e) => (Raise e, self)
  | Some (Return value) => (Return value, mkLoader (config_path self) value)
  end.

(** [__init__]: no loader is made when [load] raises. *)
Definition __init__ (files : disk) (config_path : text) : result Loader :=
  match load (mkLoader config_path YNull) files with
  | (Return _, self) => Return self
  | (Raise e, _) => Raise e
  end.

(** The loop [for key in keys] of [get]. *)
Fixpoint descend (keys : list text) (value default : yaml) : yaml :=
  match keys with
  | [] => value
  | key :: rest =>
      match value with
      | YDict entries =>
          match lookup_key key entries with
          | Some v => descend rest v default
          | None => default
          end
      | _ => default
      end
  end.

(** [get] *)
Definition get (self : Loader) (files : disk) (key_path : text)
  (default : yaml) : result yaml * Loader :=
  let loaded :=
    match config self with
    | YNull =>
        match load self files with
        | (Return _, self') => Return self'
        | (Raise e, _) => Raise e
        end
    | _ => Return self
    end in
  match loaded with
  | Raise e => (Raise e, self)
  | Return self' =>
      (Return (descend (split dot key_path) (config self') default), self')
  end.

Definition is_str (item : text) (value : yaml) : bool :=
  match value with
  | YStr s => text_eqb item s
  | _ => false
  end.

(** [item in container] for a string [item]: a key of a mapping, an element
    of a sequence, a substring of a string; any other container raises
    [TypeError] (its message names the type and is not modelled). *)
Definition contains (container : yaml) (item : text) : result bool :=
  match container with
  | YDict entries =>
      Return (match lookup_key item entries with Some _ => true | None => false end)
  | YList items => Return (existsb (is_str item) items)
  | YStr s => Return (0 <=? rfind s item)
  | _ => Raise (TypeError (str "argument is not iterable"))
  end.

Definition required_sections : list text :=
  [str "job_preferences"; str "ai_settings"; str "resume";
   str "automation"; str "logging"].

(** The loop [for section in required_sections] of [validate]. *)
Fixpoint check_sections (sections : list text) (value : yaml) : result bool :=
  match sections with
  | [] => Return true
  | section :: rest =>
      match contains value section with
      | Raise e => Raise e
      | Return true => check_sections rest value
      | Return false =>
          Raise (ValueError (str "Missing required configuration section: "
                               ++ section))
      end
  end.

(** [validate] *)
Definition validate (self : Loader) : result bool :=
  match config self with
  | YNull => Raise (ValueError (str "No configuration loaded"))
  | value => check_sections required_sections value
  end.

(** [get_config]: [global] is the module variable [_config]; the loader
    returned is the one the variable holds afterwards. *)
Definition get_config (global : option Loader) (files : disk)
  (config_path : text) : result Loader * option Loader :=
  match global with
  | Some loader => (Return loader, Some loader)
  | None =>
      match __init__ files config_path with
      | Return loader => (Return loader, Some loader)
      | Raise e => (Raise e, None)
      end
  end.

(** A sequence of [get_config] calls, each with the files of its moment and
    its [config_path]. *)
Fixpoint get_configs (global : option Loader) (calls : list (disk * text))
  : list (result Loader) :=
  match calls with
  | [] => []
  | (files, config_path) :: rest =>
      let '(r, global') := get_config global files config_path in
      r :: get_configs global' rest
  end.

(** The value found by following [keys] through nested mappings, if every
    key is there. *)
Fixpoint follow (keys : list text) (value : yaml) : option yaml :=
  match keys with
  | [] => Some value
  | key :: rest =>
      match value with
      | YDict entries =>
          match lookup_key key entries with
          | Some v => follow rest v
          | None => None
          end
      | _ => None
      end
  end.

(** The entries of a mapping whose key is a string without a dot. *)
Definition has_dot (key : yaml) : bool :=
  match key with
  | YStr k => existsb (N.eqb dot) k
  | _ => false
  end.

Definition without_dotted_keys (entries : list (yaml * yaml))
  : list (yaml * yaml) :=
  filter (fun entry => negb (has_dot (fst entry))) entries.

End ConfigLoader.

Module ConfigLoaderFacts.
Import Py PyFacts IO DocumentsFacts ConfigLoader.

(** *** [split] *)

Lemma split_nonempty (sep : char) (s : text) : split sep s <> [].
Proof.
  induction s as [|c s IH]; simpl; [discriminate|].
  destruct (c =? sep)%N; [discriminate|].
  destruct (split sep s); discriminate.
Qed.

Lemma split_app (sep : char) (a b : text) :
  split sep (a ++ sep :: b) = split sep a ++ split sep b.
Proof.
  induction a as [|c a IH]; simpl.
  - now rewrite N.eqb_refl.
  - destruct (c =? sep)%N; [now rewrite IH|].
    rewrite IH. pose proof (split_nonempty sep a) as Hne.
    destruct (split sep a) as [|word words]; [congruence | reflexivity].
Qed.

Lemma split_no_sep (sep : char) (s : text) :
  Forall (fun key => existsb (N.eqb sep) key = false) (split sep s).
Proof.
  induction s as [|c s IH]; simpl.
  - repeat constructor.
  - destruct (c =? sep)%N eqn:Hc.
    + constructor; [reflexivity | exact IH].
    + destruct (split sep s) as [|word words]; [repeat constructor; simpl|].
      * rewrite N.eqb_sym, Hc. reflexivity.
      * inversion IH as [|? ? Hword Hwords]; subst.
        constructor; [|exact Hwords]. simpl.
        now rewrite N.eqb_sym, Hc.
Qed.

(** *** [get] *)

Lemma descend_follow (keys : list text) : forall value default,
  descend keys value default
  = match follow keys value with Some v => v | None => default end.
Proof.
  induction keys as [|key rest IH]; intros value default; simpl;
    [reflexivity|].
  destruct value; try reflexivity.
  destruct (lookup_key key entries); [apply IH | reflexivity].
Qed.

Lemma follow_app (keys1 keys2 : list text) : forall value,
  follow (keys1 ++ keys2) value
  = match follow keys1 value with
    | Some v => follow keys2 v
    | None => None
    end.
Proof.
  induction keys1 as [|key rest IH]; intros value; simpl; [reflexivity|].
  destruct value; try reflexivity.
  destruct (lookup_key key entries); [apply IH | reflexivity].
Qed.

Lemma get_loaded (self : Loader) (files : disk) (key_path : text)
  (default : yaml) :
  config self <> YNull ->
  get self files key_path default
  = (Return (descend (split dot key_path) (config self) default), self).
Proof.
  intros Hloaded. unfold get. destruct self as [path value].
  cbn [config] in *. destruct value; try reflexivity. congruence.
Qed.

(** X17. Dot notation composes.  On a loader that holds a configuration,
    [get] of the path [p.q] is the value that [q] leads to inside the value
    that [p] leads to, and the default when [p] leads nowhere; a value that
    is found is returned as it is stored (also a null or false one), and the
    loader is not changed. *)
Theorem get_dotted_path (self : Loader) (files : disk) (p q : text)
  (default : yaml) :
  config self <> YNull ->
  get self files (p ++ dot :: q) default
  = (Return match follow (split dot p) (config self) with
            | Some inner => descend (split dot q) inner default
            | None => default
            end, self)
  /\ (forall v, follow (split dot p) (config self) = Some v ->
        get self files p default = (Return v, self)).
Proof.
  intros Hloaded. split.
  - rewrite (get_loaded _ _ _ _ Hloaded), split_app, descend_follow, follow_app.
    destruct (follow (split dot p) (config self)) as [inner|];
      [|reflexivity].
    now rewrite descend_follow.
  - intros v Hv. rewrite (get_loaded _ _ _ _ Hloaded), descend_follow.
    now rewrite Hv.
Qed.

Lemma lookup_key_without_dots (key : text) (entries : list (yaml * yaml)) :
  existsb (N.eqb dot) key = false ->
  lookup_key key (without_dotted_keys entries) = lookup_key key entries.
Proof.
  intros Hkey. unfold without_dotted_keys.
  induction entries as [|[k v] rest IH]; simpl; [reflexivity|].
  destruct k; simpl; try exact IH.
  destruct (existsb (N.eqb dot) s) eqn:Hdot; simpl.
  - destruct (text_eqb key s) eqn:Heq; [|exact IH].
    apply text_eqb_eq in Heq. congruence.
  - now rewrite IH.
Qed.

(** X18. A mapping entry whose key contains a dot cannot be addressed: for
    every key path, [get] on a configuration mapping gives what it gives on
    the same mapping without the entries whose key contains a dot. *)
Theorem get_ignores_dotted_keys (self : Loader) (files : disk)
  (entries : list (yaml * yaml)) (key_path : text) (default : yaml) :
  config self = YDict entries ->
  fst (get self files key_path default)
  = fst (get (mkLoader (config_path self) (YDict (without_dotted_keys entries)))
           files key_path default).
Proof.
  intros Hconfig.
  rewrite !get_loaded by (rewrite ?Hconfig; discriminate).
  cbn [fst config]. rewrite Hconfig. f_equal.
  pose proof (split_no_sep dot key_path) as Hkeys.
  pose proof (split_nonempty dot key_path) as Hne.
  destruct (split dot key_path) as [|key rest]; [congruence|].
  inversion Hkeys as [|? ? Hkey _]; subst. cbn [descend].
  now rewrite (lookup_key_without_dots key entries Hkey).
Qed.

(** X19. A loader made from an empty configuration file (for which
    [yaml.safe_load] returns [None]) answers every [get] with the default,
    as long as the file stays empty. *)
Theorem get_on_empty_file (files : disk) (path : text) :
  files path = Some (Return YNull) ->
  exists self,
    __init__ files path = Return self
    /\ forall key_path default,
         get self files key_path default = (Return default, self).
Proof.
  intros Hfile. exists (mkLoader path YNull). split.
  - unfold __init__, load. cbn [config_path]. now rewrite Hfile.
  - intros key_path default. unfold get, load. cbn [config config_path].
    rewrite Hfile. cbn [config].
    pose proof (split_nonempty dot key_path) as Hne.
    destruct (split dot key_path); [congruence | reflexivity].
Qed.

(** *** [validate] *)

Definition has_section (entries : list (yaml * yaml)) (section : text) : bool :=
  match lookup_key section entries with
  | Some _ => true
  | None => false
  end.

Lemma check_sections_mapping (entries : list (yaml * yaml)) :
  forall sections,
    (check_sections sections (YDict entries) = Return true
     /\ Forall (fun s => has_section entries s = true) sections)
    \/ exists before missing after,
         sections = before ++ missing :: after
         /\ Forall (fun s => has_section entries s = true) before
         /\ has_section entries missing = false
         /\ check_sections sections (YDict entries)
            = Raise (ValueError
                       (str "Missing required configuration section: "
                          ++ missing)).
Proof.
  induction sections as [|section rest IH].
  - left. split; [reflexivity | constructor].
  - cbn [check_sections contains]. fold (has_section entries section).
    destruct (has_section entries section) eqn:Hhas.
    + destruct IH as [[Hok Hall] | (before & missing & after & -> & Hall & Hm & Hr)].
      * left. split; [exact Hok | now constructor].
      * right. exists (section :: before), missing, after.
        repeat split; [now constructor | exact Hm | exact Hr].
    + right. exists [], section, rest.
      repeat split; [constructor | exact Hhas].
Qed.

(** X20. On a configuration that is a mapping, [validate] returns [True]
    exactly when the five required sections are keys of the mapping;
    otherwise it raises [ValueError] naming the first section, in the order
    "job_preferences", "ai_settings", "resume", "automation", "logging",
    that is missing. *)
Theorem validate_mapping (self : Loader) (entries : list (yaml * yaml)) :
  config self = YDict entries ->
  (validate self = Return true
   <-> Forall (fun s => has_section entries s = true) required_sections)
  /\ (validate self = Return true
      \/ exists before missing after,
           required_sections = before ++ missing :: after
           /\ Forall (fun s => has_section entries s = true) before
           /\ has_section entries missing = false
           /\ validate self
              = Raise (ValueError
                         (str "Missing required configuration section: "
                            ++ missing))).
Proof.
  intros Hconfig. unfold validate. rewrite Hconfig.
  destruct (check_sections_mapping entries required_sections)
    as [[Hok Hall] | (before & missing & after & Hsplit & Hall & Hm & Hr)].
  - split; [split; [intros _; exact Hall | intros _; exact Hok]|].
    now left.
  - split.
    + split.
      * rewrite Hr. discriminate.
      * intros Hforall. exfalso. rewrite Hsplit in Hforall.
        apply Forall_app in Hforall as [_ Hforall].
        inversion Hforall; congruence.
    + right. exists before, missing, after. tauto.
Qed.

(** *** [get_config] *)

Lemma get_configs_held (loader : Loader) (calls : list (disk * text)) :
  get_configs (Some loader) calls = map (fun _ => Return loader) calls.
Proof.
  induction calls as [|[files path] rest IH]; simpl; [reflexivity|].
  now rewrite IH.
Qed.

(** X21. [get_config] makes one loader.  In a sequence of calls, the calls
    before the first one whose configuration file loads raise; that call
    returns the loader for its path, and every later call returns the same
    loader, whatever [config_path] it is given and whatever the files hold
    by then. *)
Theorem get_config_first_loader_wins (failed : list (disk * text))
  (files : disk) (path : text) (later : list (disk * text))
  (loader : Loader) :
  Forall (fun call => exists e, __init__ (fst call) (snd call) = Raise e)
    failed ->
  __init__ files path = Return loader ->
  get_configs None (failed ++ (files, path) :: later)
  = map (fun call => __init__ (fst call) (snd call)) failed
    ++ Return loader :: map (fun _ => Return loader) later.
Proof.
  intros Hfailed Hload. induction Hfailed as [|[f p] rest [e He] _ IH].
  - simpl. rewrite Hload. now rewrite get_configs_held.
  - cbn [app get_configs get_config map fst snd] in *.
    rewrite He. cbn. now rewrite IH.
Qed.

End ConfigLoaderFacts.

(** * The further properties at concrete inputs *)

Module MoreSamples.
Import Py VectorStore StoreSpec ExactBackend Samples Persistence.

#[local] Existing Instance exact_embedder.
#[local] Existing Instance exact_index.
#[local] Existing Instance exact_host.

(** The store after [add_documents] with two texts and one record: two
    vectors beside one metadata record. *)
Definition misaligned : @world row :=
  snd (run (add_documents two_texts (Some [one_record])) fresh).

Definition two_rows : @Index row := mkIndex 2 (rows_of two_texts).

(** A serializer that keeps what was written and, as [json.dump] does,
    refuses a record that holds an object of another class. *)
Inductive stored : Type :=
| StoredIndex (i : @Index row)
| StoredJson (m : list dict)
| Truncated.

Definition read_stored_index (b : stored) : outcome (@Index row) :=
  match b with
  | StoredIndex i => Returned i
  | _ => Raised (ValueError "not an index")
  end.

Definition load_stored_json (b : stored) : outcome (list dict) :=
  match b with
  | StoredJson m => Returned m
  | _ => Raised (ValueError "Expecting value")
  end.

Fixpoint has_object (v : value) : bool :=
  match v with
  | VObject _ => true
  | VList items | VTuple items => existsb has_object items
  | VDict items =>
      existsb (fun kv => let '(k, v') := kv in has_object k || has_object v')
        items
  | _ => false
  end.

Definition dump_stored_json (m : list dict) : outcome stored :=
  if existsb (fun record => has_object (VDict record)) m
  then Raised (TypeError "Object is not JSON serializable")
  else Returned (StoredJson m).

Lemma load_stored_json_dump (m : list dict) (b : stored) :
  Forall (fun record => json_plain (VDict record)) m ->
  dump_stored_json m = Returned b -> load_stored_json b = Returned m.
Proof.
  intros _. unfold dump_stored_json.
  destruct (existsb (fun record => has_object (VDict record)) m);
    [discriminate|].
  now intros [= <-].
Qed.

Definition exact_serializer : Serializer row :=
  {| blob := stored;
     write_index := StoredIndex;
     read_index := read_stored_index;
     dump_json := dump_stored_json;
     dump_partial := fun _ => Truncated;
     load_json := load_stored_json;
     read_write_index := fun i => eq_refl;
     load_dump_json := load_stored_json_dump |}.

(** A file system without files. *)
Definition no_disk : @filesystem row exact_serializer := fun _ => None.

(** A store whose one metadata record holds an object that JSON has no
    form for, and a directory that holds an earlier state of three
    documents. *)
Definition unserializable : @world row :=
  snd (run (add_documents [str "alpha"]
              (Some [[(VStr (str "source"), VObject 1)]])) fresh).

Definition one_row : @Index row := mkIndex 2 (rows_of [str "alpha"]).

Definition earlier_disk : @filesystem row exact_serializer :=
  snd (save (self three_documents) None None (fun _ => None)).

(** A directory that holds what an earlier [save] of [misaligned] wrote. *)
Definition stale_disk : @filesystem row exact_serializer :=
  snd (save (self misaligned) None None no_disk).


Definition uneven : @Store row :=
  mkStore "exact" 2 "flat" "models" (Some three_rows) [one_record].

End MoreSamples.

Module MoreExamples.
Import Py PyFacts VectorStore StoreSpec StoreFacts ExactBackend Samples.
Import StoreMoreSpec StoreMore Persistence PersistenceFacts MoreSamples.

#[local] Existing Instance exact_embedder.
#[local] Existing Instance exact_index.
#[local] Existing Instance exact_host.
#[local] Existing Instance exact_serializer.

Lemma add_documents_then_lookup_witness :
  two_texts <> []
  /\ fits two_texts None
  /\ aligned (self empty_world)
  /\ target_index (self empty_world) = Returned created
  /\ width = d created
  /\ (1 < length two_texts)%nat
  /\ exists s' i' row record,
       add_documents two_texts None empty_world
       = (Returned tt, mkWorld s' (encoded empty_world ++ [two_texts]))
       /\ index s' = Some i'
       /\ nth_error (rows_of two_texts) 1 = Some row
       /\ nth_error (records_of two_texts None) 1 = Some record
       /\ nth_error (xb i') (length (xb created) + 1) = Some row
       /\ nth_error (metadata s') (length (xb created) + 1) = Some record.
Proof.
  assert (two_texts <> []) as H1 by discriminate.
  assert (fits two_texts None) as H2 by exact I.
  assert (aligned (self empty_world)) as H3 by reflexivity.
  assert (target_index (self empty_world) = Returned created) as H4
    by reflexivity.
  assert (width = d created) as H5 by reflexivity.
  assert (1 < length two_texts)%nat as H6 by (simpl; lia).
  repeat (split; [assumption|]).
  exact (add_documents_then_lookup empty_world two_texts None created 1
           H1 H2 H3 H4 H5 H6).
Defined.

Lemma search_skips_positions_without_metadata_witness :
  index (self misaligned) = Some two_rows
  /\ 0 < ntotal two_rows
  /\ width = d two_rows
  /\ 1 <= 5
  /\ exists q results,
       rows_of [str "alpha"] = [q]
       /\ search (str "alpha") 5 misaligned
          = (Returned results,
             mkWorld (self misaligned) (encoded misaligned ++ [[str "alpha"]]))
       /\ Forall2 (result_of (metadata (self misaligned)))
            (kept (metadata (self misaligned))
               (knn (xb two_rows) q (Z.min 5 (ntotal two_rows))))
            results
       /\ len results <= Z.min 5 (ntotal two_rows).
Proof.
  assert (index (self misaligned) = Some two_rows) as H1 by reflexivity.
  assert (0 < ntotal two_rows) as H2 by reflexivity.
  assert (width = d two_rows) as H3 by reflexivity.
  split; [exact H1|]. split; [exact H2|]. split; [exact H3|]. split; [lia|].
  exact (search_skips_positions_without_metadata misaligned (str "alpha") 5
           two_rows H1 H2 H3 ltac:(lia)).
Defined.

(** On [misaligned] the query finds both vectors and returns the one result
    whose position has a metadata record. *)
Example search_on_misaligned_store :
  fst (search (str "alpha") 5 misaligned) = Returned [(0, one_record)].
Proof. vm_compute. reflexivity. Qed.

Lemma collect_negative_position_witness :
  -1 < 0
  /\ (- len [one_record] <= -1 ->
      exists record,
        nth_error [one_record] (Z.to_nat (-1 + len [one_record])) = Some record
        /\ collect (lib := exact_index) [one_record] [(7, -1)] []
           = collect (lib := exact_index) [one_record] []
               ([] ++ [(similarity_of 7, record)]))
  /\ (-1 < - len [one_record] ->
      collect (lib := exact_index) [one_record] [(7, -1)] []
      = Raised IndexError).
Proof.
  split; [lia|].
  exact (collect_negative_position (lib := exact_index) [one_record] 7 (-1)
           [] [] ltac:(lia)).
Defined.

Definition three_records : stored :=
  StoredJson (metadata (self three_documents)).

Lemma three_documents_plain : plain_records (metadata (self three_documents)).
Proof.
  repeat constructor; try (eexists; reflexivity); intros [].
Defined.

Lemma save_then_construct_witness :
  index (self three_documents) = Some three_rows
  /\ plain_records (metadata (self three_documents))
  /\ dump_json (metadata (self three_documents)) = Returned three_records
  /\ mkdir (model_dir (self three_documents)) = Returned tt
  /\ SentenceTransformer "exact" = Returned tt
  /\ fst (save (self three_documents) None None stale_disk) = Returned tt
  /\ exists s',
       construct "exact" 2 "flat"
         (Some (AsPath (model_dir (self three_documents))))
         (snd (save (self three_documents) None None stale_disk))
       = Returned s'
       /\ index s' = Some three_rows
       /\ metadata s' = metadata (self three_documents).
Proof.
  assert (index (self three_documents) = Some three_rows) as H1 by reflexivity.
  assert (dump_json (metadata (self three_documents)) = Returned three_records)
    as H2 by reflexivity.
  assert (mkdir (model_dir (self three_documents)) = Returned tt) as H3
    by reflexivity.
  assert (SentenceTransformer "exact" = Returned tt) as H4 by reflexivity.
  split; [exact H1|]. split; [exact three_documents_plain|].
  split; [exact H2|]. split; [exact H3|]. split; [exact H4|].
  exact (save_then_construct (self three_documents) three_rows three_records
           stale_disk "exact" 2 "flat" H1 three_documents_plain H2 H3 H4).
Defined.

(** Before that [save] the directory held two vectors and one record. *)
Example stale_disk_holds_two_vectors :
  construct "exact" 2 "flat" None stale_disk
  = Returned (mkStore "exact" 2 "flat" "models" (Some two_rows) [one_record]).
Proof. reflexivity. Qed.

Lemma clear_then_save_keeps_files_witness :
  index (self three_documents) = Some three_rows
  /\ plain_records (metadata (self three_documents))
  /\ dump_json (metadata (self three_documents)) = Returned three_records
  /\ mkdir (model_dir (self three_documents)) = Returned tt
  /\ SentenceTransformer "exact" = Returned tt
  /\ (let saved := snd (save (self three_documents) None None no_disk) in
      let cleared :=
        self (snd (clear (mkWorld (self three_documents) []))) in
      index cleared = None
      /\ metadata cleared = []
      /\ save cleared None None saved = (Returned tt, saved)
      /\ exists s',
           construct "exact" 2 "flat" (Some (AsPath (model_dir cleared)))
             (snd (save cleared None None saved)) = Returned s'
           /\ index s' = Some three_rows
           /\ metadata s' = metadata (self three_documents)).
Proof.
  assert (index (self three_documents) = Some three_rows) as H1 by reflexivity.
  assert (dump_json (metadata (self three_documents)) = Returned three_records)
    as H2 by reflexivity.
  assert (mkdir (model_dir (self three_documents)) = Returned tt) as H3
    by reflexivity.
  assert (SentenceTransformer "exact" = Returned tt) as H4 by reflexivity.
  split; [exact H1|]. split; [exact three_documents_plain|].
  split; [exact H2|]. split; [exact H3|]. split; [exact H4|].
  exact (clear_then_save_keeps_files (self three_documents) three_rows
           three_records no_disk [] "exact" 2 "flat" H1 three_documents_plain
           H2 H3 H4).
Defined.


(** The store constructed on the uneven files is not aligned. *)
Example uneven_store_not_aligned : ~ aligned uneven.
Proof. intros H. vm_compute in H. discriminate. Qed.

Lemma supported_kinds_behave_alike_witness :
  supported_kind (index_type (self empty_world))
  /\ supported_kind "hnsw"
  /\ add_documents two_texts None (world_with_kind "hnsw" empty_world)
     = (fst (add_documents two_texts None empty_world),
        world_with_kind "hnsw" (snd (add_documents two_texts None empty_world)))
  /\ search (str "alpha") 3 (world_with_kind "hnsw" empty_world)
     = (fst (search (str "alpha") 3 empty_world),
        world_with_kind "hnsw" (snd (search (str "alpha") 3 empty_world))).
Proof.
  assert (supported_kind (index_type (self empty_world))) as H1
    by (left; reflexivity).
  assert (supported_kind "hnsw") as H2 by (right; right; reflexivity).
  split; [exact H1|]. split; [exact H2|].
  exact (supported_kinds_behave_alike "hnsw" empty_world two_texts None
           (str "alpha") 3 H1 H2).
Defined.

Definition mixed_calls : list (@operation) :=
  [ Add two_texts None; Search (str "alpha") 3; Clear;
    Add [str "gamma"] (Some [one_record]); Search (str "gamma") 1 ].

Lemma operations_keep_alignment_witness :
  aligned (self empty_world)
  /\ Forall well_formed mixed_calls
  /\ Forall aligned (stores_after mixed_calls empty_world).
Proof.
  assert (aligned (self empty_world)) as H1 by reflexivity.
  assert (Forall well_formed mixed_calls) as H2
    by (repeat constructor).
  split; [exact H1|]. split; [exact H2|].
  exact (operations_keep_alignment mixed_calls empty_world H1 H2).
Defined.

Lemma failed_save_leaves_no_state_witness :
  index (self unserializable) = Some one_row
  /\ dump_json (metadata (self unserializable))
     = Raised (TypeError "Object is not JSON serializable")
  /\ load_json (dump_partial (metadata (self unserializable)))
     = Raised (ValueError "Expecting value")
  /\ mkdir (model_dir (self unserializable)) = Returned tt
  /\ SentenceTransformer "exact" = Returned tt
  /\ fst (save (self unserializable) None None earlier_disk)
     = Raised (TypeError "Object is not JSON serializable")
  /\ snd (save (self unserializable) None None earlier_disk)
         (default_index_path (self unserializable))
     = Some (write_index one_row)
  /\ exists s',
       construct "exact" 2 "flat"
         (Some (AsPath (model_dir (self unserializable))))
         (snd (save (self unserializable) None None earlier_disk))
       = Returned s'
       /\ index s' = None
       /\ metadata s' = [].
Proof.
  assert (index (self unserializable) = Some one_row) as H1 by reflexivity.
  assert (dump_json (metadata (self unserializable))
          = Raised (TypeError "Object is not JSON serializable")) as H2
    by reflexivity.
  assert (load_json (dump_partial (metadata (self unserializable)))
          = Raised (ValueError "Expecting value")) as H3 by reflexivity.
  assert (mkdir (model_dir (self unserializable)) = Returned tt) as H4
    by reflexivity.
  assert (SentenceTransformer "exact" = Returned tt) as H5 by reflexivity.
  split; [exact H1|]. split; [exact H2|]. split; [exact H3|].
  split; [exact H4|]. split; [exact H5|].
  exact (failed_save_leaves_no_state (self unserializable) one_row _ _
           earlier_disk "exact" 2 "flat" H1 H2 H3 H4 H5).
Defined.

(** Before the failed [save] the directory held three documents. *)
Example earlier_disk_holds_three_documents :
  construct "exact" 2 "flat" (Some (AsStr "models")) earlier_disk
  = Returned (mkStore "exact" 2 "flat" "models" (Some three_rows)
                (metadata (self three_documents))).
Proof. reflexivity. Qed.

End MoreExamples.

Module PipelineExamples.
Import Py PyFacts VectorStore StoreSpec ExactBackend Samples.
Import Documents DocumentsFacts EmbedPersonalDocs EmbedPersonalDocsFacts.

#[local] Existing Instance exact_embedder.
#[local] Existing Instance exact_index.

Definition resume : document :=
  mkDocument (str "Python developer. Five years of experience!")
    (mkMetadata (str "data/resume.txt") (str "resume.txt") 43 (str ".txt"))
    (str ".txt").

Definition notes : document :=
  mkDocument (str "")
    (mkMetadata (str "data/notes.md") (str "notes.md") 0 (str ".md"))
    (str ".md").

(** A document of 585 characters: thirteen sentences, each followed by a
    blank. *)
Definition essay : document :=
  mkDocument
    (concat (repeat (str "The quick brown fox jumps over the lazy dog. ") 13))
    (mkMetadata (str "data/essay.txt") (str "essay.txt") 585 (str ".txt"))
    (str ".txt").

Definition sample_dict : chunk_metadata -> dict := chunk_record.

Lemma sample_fuel :
  Forall (fun doc => (length (content doc) < 100)%nat) [resume; notes].
Proof. repeat constructor; vm_compute; lia. Defined.

Lemma essay_fuel :
  Forall (fun doc => (length (content doc) < 600)%nat) [essay; notes].
Proof. repeat constructor; vm_compute; lia. Defined.

Lemma chunk_documents_one_record_per_chunk_witness :
  Forall (fun doc => (length (content doc) < 600)%nat) [essay; notes]
  /\ exists all_chunks all_metadata,
       chunk_documents 600 [essay; notes] [] []
       = Some (Returned (all_chunks, all_metadata))
       /\ collected [essay; notes] all_chunks all_metadata
       /\ length all_metadata = length all_chunks
       /\ (length [essay; notes] <= length all_chunks)%nat
       /\ Forall (fun r => 0 <= chunk_index r < total_chunks r
                           /\ len (text_preview r) <= 103) all_metadata.
Proof.
  split; [exact essay_fuel|].
  exact (chunk_documents_one_record_per_chunk 600 [essay; notes] essay_fuel).
Defined.

(** The essay is cut after its eleventh sentence and gives two chunks with
    previews of 103 characters; the empty document gives one empty chunk. *)
Example chunk_documents_on_essay :
  option_map
    (fun r =>
       match r with
       | Returned (all_chunks, all_metadata) =>
           (map len all_chunks,
            map (fun m => (chunk_index m, total_chunks m,
                           len (text_preview m))) all_metadata)
       | Raised _ => ([], [])
       end)
    (chunk_documents 600 [essay; notes] [] [])
  = Some ([494; 139; 0], [(0, 2, 103); (1, 2, 103); (0, 1, 0)]).
Proof. vm_compute. reflexivity. Qed.

Lemma index_documents_keeps_alignment_witness :
  Forall (fun doc => (length (content doc) < 100)%nat) [resume; notes]
  /\ aligned (self empty_world)
  /\ exists r w' all_chunks all_metadata,
       chunk_documents 100 [resume; notes] [] []
       = Some (Returned (all_chunks, all_metadata))
       /\ index_documents sample_dict 100 [resume; notes] empty_world
          = Some (r, w')
       /\ fits all_chunks (Some (map sample_dict all_metadata))
       /\ aligned (self w')
       /\ (r = Returned tt ->
           index_count (self w')
           = index_count (self empty_world) + len all_chunks).
Proof.
  assert (aligned (self empty_world)) as H by reflexivity.
  split; [exact sample_fuel|]. split; [exact H|].
  exact (index_documents_keeps_alignment sample_dict 100 [resume; notes]
           empty_world sample_fuel H).
Defined.

(** A directory ["data"] with a text file, a JSON file that does not parse,
    a sub-directory, an image and a Markdown file with an upper-case suffix
    that is not UTF-8; nothing below ["locked"] may be looked at.  A path is
    written without a leading ["./"]. *)
Definition ascii_lower (t : text) : text :=
  map (fun c => if ((65 <=? c) && (c <=? 90))%N then (c + 32)%N else c) t.

Definition suffix_of (path : text) : text :=
  let i := rfind path [dot] in
  if 0 <? i then slice path i (len path) else [].

Definition sample_files : list text :=
  [str "data/cv.txt"; str "data/notes.MD"; str "data/photo.png";
   str "data/broken.json"].

Definition sample_listing : list text :=
  [str "data/cv.txt"; str "data/broken.json"; str "data/old";
   str "data/photo.png"; str "data/notes.MD"].

Definition denied {A} (path : text) : IO.result A :=
  IO.Raise (IO.LibraryError
              (str "[Errno 13] Permission denied: '" ++ path ++ str "'")).

Definition guarded {A} (path : text) (answer : A) : IO.result A :=
  if startswith path (str "locked/") then denied path else IO.Return answer.

Definition sample_environment : @environment text :=
  {| Path := fun s => if startswith s (str "./") then slice s 2 (len s) else s;
     exists_ := fun p =>
       guarded p (IO.mem p (str "data" :: str "data/old" :: sample_files));
     is_dir := fun p => guarded p (IO.mem p [str "data"; str "data/old"]);
     is_file := fun p => guarded p (IO.mem p sample_files);
     iterdir := fun p =>
       if IO.text_eqb p (str "data") then IO.Return sample_listing
       else IO.Raise (IO.LibraryError (str "[Errno 20] Not a directory"));
     name := fun p => slice p 5 (len p);
     suffix := suffix_of;
     st_size := fun p => guarded p (len p);
     pdf_pages := fun _ => IO.Raise (IO.LibraryError (str "no such file"));
     docx_paragraphs := fun _ => IO.Raise (IO.LibraryError (str "no such file"));
     read_utf8 := fun p =>
       if IO.text_eqb p (str "data/cv.txt") then Utf8Text (str "Curriculum")
       else if IO.text_eqb p (str "data/notes.MD") then Utf8DecodeError
       else Utf8Failure (IO.LibraryError (str "no such file"));
     read_latin1 := fun _ => IO.Return (str "Notes");
     load := fun _ => IO.Raise (IO.LibraryError (str "Expecting value"));
     lower := ascii_lower;
     dumps := fun _ => [];
     to_str := fun s => s |}.



(** [parse_directory] on the sample directory: the two text files, in the
    order of the listing, under the paths as the path objects write them. *)
Example parse_sample_directory :
  parse_directory sample_environment (FromStr (str "./data"))
  = IO.Return
      [ mkDocument (str "Curriculum")
          (mkMetadata (str "data/cv.txt") (str "cv.txt") 11 (str ".txt"))
          (str ".txt");
        mkDocument (str "Notes")
          (mkMetadata (str "data/notes.MD") (str "notes.MD") 13 (str ".md"))
          (str ".md") ].
Proof. vm_compute. reflexivity. Qed.

(** The text of the path object is what the messages hold. *)
Example parse_missing_file :
  parse sample_environment (FromStr (str "./data/nope.txt"))
  = IO.Raise (IO.FileNotFoundError (str "File not found: data/nope.txt")).
Proof. vm_compute. reflexivity. Qed.

(** A path that may not be looked at: [exists()] raises and [parse] lets
    the exception through. *)
Definition locked_out : IO.error :=
  IO.LibraryError (str "[Errno 13] Permission denied: 'locked/cv.txt'").

Lemma parse_raises_value_error_witness :
  parse sample_environment (FromStr (str "locked/cv.txt"))
  = IO.Raise locked_out
  /\ (exists_ sample_environment
        (to_path sample_environment (FromStr (str "locked/cv.txt")))
      = IO.Raise locked_out
      \/ (exists_ sample_environment
            (to_path sample_environment (FromStr (str "locked/cv.txt")))
          = IO.Return false
          /\ locked_out
             = IO.FileNotFoundError
                 (str "File not found: "
                  ++ to_path sample_environment
                       (FromStr (str "locked/cv.txt"))))
      \/ (exists msg, locked_out = IO.ValueError msg)
      \/ (read_utf8 sample_environment
            (to_path sample_environment (FromStr (str "locked/cv.txt")))
          = Utf8DecodeError
          /\ read_latin1 sample_environment
               (to_path sample_environment (FromStr (str "locked/cv.txt")))
             = IO.Raise locked_out)
      \/ (exists parser content,
            lookup
              (lower sample_environment
                 (suffix sample_environment
                    (to_path sample_environment
                       (FromStr (str "locked/cv.txt")))))
              (parser_map sample_environment) = Some parser
            /\ parser (to_path sample_environment
                         (FromStr (str "locked/cv.txt")))
               = IO.Return content
            /\ st_size sample_environment
                 (to_path sample_environment (FromStr (str "locked/cv.txt")))
               = IO.Raise locked_out)).
Proof.
  assert (parse sample_environment (FromStr (str "locked/cv.txt"))
          = IO.Raise locked_out) as H by (vm_compute; reflexivity).
  split; [exact H|].
  exact (parse_raises_value_error sample_environment
           (FromStr (str "locked/cv.txt")) locked_out H).
Defined.

(** The wrapped error of a reader, for comparison. *)
Example parse_broken_json :
  parse sample_environment (FromPath (str "data/broken.json"))
  = IO.Raise
      (IO.ValueError
         (str "Error parsing JSON data/broken.json: Expecting value")).
Proof. vm_compute. reflexivity. Qed.

End PipelineExamples.

Module ConfigExamples.
Import Py ConfigLoader ConfigLoaderFacts.

Definition settings : yaml :=
  YDict [ (YStr (str "logging"),
           YDict [ (YStr (str "level"), YStr (str "DEBUG"));
                   (YStr (str "log_file"), YNull) ]);
          (YStr (str "ai_settings"), YDict []);
          (YStr (str "logging.level"), YStr (str "hidden"));
          (YInt 1, YStr (str "one")) ].

Definition loaded : Loader := mkLoader (str "config.yaml") settings.

Definition no_config : disk := fun _ => None.

Definition one_config : disk :=
  fun p => if IO.text_eqb p (str "config.yaml") then Some (IO.Return settings)
           else None.

Definition empty_config : disk := fun _ => Some (IO.Return YNull).

Lemma get_dotted_path_witness :
  config loaded <> YNull
  /\ get loaded no_config (str "logging" ++ dot :: str "level") (YStr (str "INFO"))
     = (IO.Return match follow (split dot (str "logging")) (config loaded) with
                  | Some inner =>
                      descend (split dot (str "level")) inner (YStr (str "INFO"))
                  | None => YStr (str "INFO")
                  end, loaded)
  /\ (forall v, follow (split dot (str "logging")) (config loaded) = Some v ->
        get loaded no_config (str "logging") (YStr (str "INFO"))
        = (IO.Return v, loaded)).
Proof.
  assert (config loaded <> YNull) as H by discriminate.
  split; [exact H|].
  exact (get_dotted_path loaded no_config (str "logging") (str "level")
           (YStr (str "INFO")) H).
Defined.

(** The key "logging.level" of the mapping is not what the path
    "logging.level" finds, and a stored null is returned in place of the
    default. *)
Example get_samples :
  fst (get loaded no_config (str "logging.level") (YStr (str "INFO")))
  = IO.Return (YStr (str "DEBUG"))
  /\ fst (get loaded no_config (str "logging.log_file") (YStr (str "run.log")))
     = IO.Return YNull
  /\ fst (get loaded no_config (str "logging.missing") (YStr (str "INFO")))
     = IO.Return (YStr (str "INFO"))
  /\ fst (get loaded no_config (str "") (YInt 0)) = IO.Return (YInt 0).
Proof. repeat split; vm_compute; reflexivity. Qed.

Definition settings_entries : list (yaml * yaml) :=
  match settings with
  | YDict entries => entries
  | _ => []
  end.

Lemma get_ignores_dotted_keys_witness :
  config loaded = YDict settings_entries
  /\ fst (get loaded no_config (str "logging.level") YNull)
     = fst (get (mkLoader (config_path loaded)
                   (YDict (without_dotted_keys settings_entries)))
              no_config (str "logging.level") YNull).
Proof.
  assert (config loaded = YDict settings_entries) as H by reflexivity.
  split; [exact H|].
  exact (get_ignores_dotted_keys loaded no_config settings_entries
           (str "logging.level") YNull H).
Defined.

Lemma get_on_empty_file_witness :
  empty_config (str "config.yaml") = Some (IO.Return YNull)
  /\ exists self,
       __init__ empty_config (str "config.yaml") = IO.Return self
       /\ forall key_path default,
            get self empty_config key_path default = (IO.Return default, self).
Proof.
  assert (empty_config (str "config.yaml") = Some (IO.Return YNull)) as H
    by reflexivity.
  split; [exact H|].
  exact (get_on_empty_file empty_config (str "config.yaml") H).
Defined.

Lemma validate_mapping_witness :
  config loaded = YDict settings_entries
  /\ (validate loaded = IO.Return true
      <-> Forall (fun s => has_section settings_entries s = true)
            required_sections)
  /\ (validate loaded = IO.Return true
      \/ exists before missing after,
           required_sections = before ++ missing :: after
           /\ Forall (fun s => has_section settings_entries s = true) before
           /\ has_section settings_entries missing = false
           /\ validate loaded
              = IO.Raise (IO.ValueError
                            (str "Missing required configuration section: "
                               ++ missing))).
Proof.
  assert (config loaded = YDict settings_entries) as H by reflexivity.
  split; [exact H|].
  exact (validate_mapping loaded settings_entries H).
Defined.

(** The sample configuration lacks "job_preferences", the first required
    section. *)
Example validate_sample :
  validate loaded
  = IO.Raise (IO.ValueError
                (str "Missing required configuration section: job_preferences")).
Proof. vm_compute. reflexivity. Qed.

Lemma get_config_first_loader_wins_witness :
  Forall (fun call => exists e, __init__ (fst call) (snd call) = IO.Raise e)
    [(no_config, str "missing.yaml")]
  /\ __init__ one_config (str "config.yaml") = IO.Return loaded
  /\ get_configs None
       ([(no_config, str "missing.yaml")]
        ++ (one_config, str "config.yaml")
           :: [(no_config, str "other.yaml"); (empty_config, str "empty.yaml")])
     = map (fun call => __init__ (fst call) (snd call))
         [(no_config, str "missing.yaml")]
       ++ IO.Return loaded
          :: map (fun _ => IO.Return loaded)
               [(no_config, str "other.yaml"); (empty_config, str "empty.yaml")].
Proof.
  assert (Forall (fun call => exists e,
                    __init__ (fst call) (snd call) = IO.Raise e)
            [(no_config, str "missing.yaml")]) as H1
    by (repeat constructor; eexists; reflexivity).
  assert (__init__ one_config (str "config.yaml") = IO.Return loaded) as H2
    by reflexivity.
  split; [exact H1|]. split; [exact H2|].
  exact (get_config_first_loader_wins [(no_config, str "missing.yaml")]
           one_config (str "config.yaml")
           [(no_config, str "other.yaml"); (empty_config, str "empty.yaml")]
           loaded H1 H2).
Defined.

End ConfigExamples.
